(** * MessageEmbed: box-drawn text embeds (src/assets/Embeds.js)

    A shallow embedding of the [MessageEmbed] class and proofs about its
    sizing, wrapping, footer and serialisation operations.

    Conventions of the embedding:
    - a JavaScript string is the list of its UTF-16 code units, so that
      [length] is [.length] and [slice] cuts where the source cuts;
    - JavaScript numbers are restricted to the integers plus [NaN]
      (fractional and infinite values are outside the model);
    - a method is a function from the receiver's state to a completion
      (returned value or thrown error) paired with the state it leaves. *)

From Stdlib Require Import ZArith NArith List Lia String Ascii Bool.
From Stdlib Require Import DecimalString.
Import ListNotations.

Local Open Scope Z_scope.

(* ================================================================= *)
(** ** JavaScript values *)

Definition char16 := N.
Definition jsstring := list char16.

(** An ASCII literal of the source as a list of code units. *)
Definition lit (s : string) : jsstring :=
  map N_of_ascii (list_ascii_of_string s).

(** Numbers: an integer or [NaN]. *)
Inductive num :=
| Num (z : Z)
| NaN.

(** The values a caller can pass to a method. [JObject] stands for any
    value whose [typeof] is neither ["number"], ["string"] nor
    ["undefined"]. *)
Inductive jsval :=
| JUndefined
| JNull
| JNumber (n : num)
| JString (s : jsstring)
| JObject.

Definition typeof (v : jsval) : string :=
  match v with
  | JUndefined => "undefined"
  | JNull => "object"
  | JNumber _ => "number"
  | JString _ => "string"
  | JObject => "object"
  end.

(** [!s] on a string: only the empty string is falsy. *)
Definition not_string (s : string) : bool :=
  match s with
  | EmptyString => true
  | _ => false
  end.

(** [b === s] with a Boolean on the left and a String on the right: the
    operands have different types, so strict equality is [false]. *)
Definition bool_strict_eq_string (b : bool) (s : string) : bool := false.

Definition is_undefined (v : jsval) : bool :=
  match v with
  | JUndefined => true
  | _ => false
  end.

Definition len (s : jsstring) : Z := Z.of_nat (List.length s).

(** Array read [a[i]]: [None] is [undefined]. *)
Definition js_get {A : Type} (a : list A) (i : Z) : option A :=
  if i <? 0 then None else nth_error a (Z.to_nat i).

(** [a - b] and [a + b] where [b] may be [undefined]: the result is [NaN]
    as soon as an operand is [undefined] or [NaN]. *)
Definition js_sub (a : num) (b : option num) : num :=
  match a, b with
  | Num x, Some (Num y) => Num (x - y)
  | _, _ => NaN
  end.

Definition js_add (a : num) (b : option num) : num :=
  match a, b with
  | Num x, Some (Num y) => Num (x + y)
  | _, _ => NaN
  end.

(** ToIntegerOrInfinity on the values of the model: [undefined] and [NaN]
    become 0. *)
Definition to_integer (v : option num) : Z :=
  match v with
  | Some (Num z) => z
  | _ => 0
  end.

(** [String.prototype.slice(start, end)]: negative positions count from the
    end, positions are clamped to the string, an [undefined] end is the
    length. *)
Definition slice (s : jsstring) (start end_ : option num) : jsstring :=
  let n := len s in
  let intStart := to_integer start in
  let from := if intStart <? 0 then Z.max (n + intStart) 0 else Z.min intStart n in
  let intEnd := match end_ with None => n | Some _ => to_integer end_ end in
  let to := if intEnd <? 0 then Z.max (n + intEnd) 0 else Z.min intEnd n in
  let span := Z.max (to - from) 0 in
  firstn (Z.to_nat span) (skipn (Z.to_nat from) s).

(** Decimal rendering of an integer, as string concatenation does it. *)
Definition string_of_Z (z : Z) : jsstring :=
  lit (NilZero.string_of_int (Z.to_int z)).

(* ================================================================= *)
(** ** Loops *)

(** One iteration of a loop body either goes on or leaves the loop. *)
Inductive flow (S : Type) :=
| Next (s : S)
| Break (s : S).
Arguments Next {S} s.
Arguments Break {S} s.

(** [for (let i = lo; ...; i++)] running at most [n] iterations. *)
Fixpoint for_from {S : Type} (n : nat) (i : Z) (body : Z -> S -> flow S) (s : S) : S :=
  match n with
  | O => s
  | S n' =>
      match body i s with
      | Next s' => for_from n' (i + 1) body s'
      | Break s' => s'
      end
  end.

(** [for (let i = 0; i < bound; i++) body] *)
Definition for_loop {S : Type} (bound : Z) (body : Z -> S -> flow S) (s : S) : S :=
  for_from (Z.to_nat bound) 0 body s.

(* ================================================================= *)
(** ** The wrapping algorithm of setTitle and setDescription

    The two setters carry the same three loops (lines 186-233 and 334-381);
    they differ only in what is put around each slice, which is the
    [decorate] argument here. *)

Definition wall : jsstring := [9474%N].   (* U+2502 *)
Definition space : jsstring := [8199%N].  (* U+2007, figure space *)
Definition newline : jsstring := [10%N].
Definition dash : jsstring := [9472%N].   (* U+2500 *)

Record partition_state := {
  parts : Z;
  parts_count : Z;
  parts_count_loop : Z;
  help_loop : bool;
  final_count : num;
  arr_parts : list num
}.

(** Body of the first loop: record every multiple of [max] met on the way,
    then the end of the string. *)
Definition partition_body (max lenstr : Z) (i : Z) (st : partition_state)
  : flow partition_state :=
  let st1 :=
    if i =? parts st then
      {| parts := parts st + max;
         parts_count := parts_count st + 1;
         parts_count_loop := parts_count_loop st + 1;
         help_loop := help_loop st;
         final_count := final_count st;
         arr_parts := arr_parts st ++ [Num i] |}
    else st in
  if i =? lenstr then
    let lastElement := js_get (arr_parts st1) (Z.of_nat (List.length (arr_parts st1)) - 1) in
    let final_count1 := js_sub (Num i) lastElement in
    let final_count2 := js_add final_count1 lastElement in
    Next {| parts := parts st1;
            parts_count := parts_count st1;
            parts_count_loop := parts_count_loop st1;
            help_loop := true;
            final_count := final_count2;
            arr_parts := arr_parts st1 ++ [final_count2] |}
  else Next st1.

Definition partition (max lenstr : Z) : partition_state :=
  let o := lenstr + 1 in
  let st :=
    for_loop o (partition_body max lenstr)
      {| parts := max; parts_count := 0; parts_count_loop := 0;
         help_loop := false; final_count := Num 0; arr_parts := [] |} in
  if help_loop st then
    {| parts := parts st;
       parts_count := parts_count st;
       parts_count_loop := parts_count_loop st + 1;
       help_loop := help_loop st;
       final_count := final_count st;
       arr_parts := arr_parts st |}
  else st.

Record slice_state := {
  arr : list jsstring;
  liceit : Z;
  liceitagain : Z
}.

(** Body of the second loop: full-width slices, then one last slice between
    the two last recorded positions. *)
Definition slice_body (decorate : jsstring -> jsstring) (text : jsstring)
    (max see_final : Z) (positions : list num) (i : Z) (st : slice_state)
  : flow slice_state :=
  if i =? see_final then
    let neednum := i - 1 in
    let fix_another_last := js_get positions neednum in
    let fix_last := js_get positions i in
    let maketheslicefix := slice text fix_another_last fix_last in
    let final_result := decorate maketheslicefix in
    Break {| arr := arr st ++ [final_result];
             liceit := liceit st;
             liceitagain := liceitagain st |}
  else
    let maketheslice := slice text (Some (Num (liceit st))) (Some (Num (liceitagain st))) in
    let final_result := decorate maketheslice in
    Next {| arr := arr st ++ [final_result];
            liceit := liceit st + max;
            liceitagain := liceitagain st + max |}.

(** The array [arr] of decorated lines after the second loop. *)
Definition wrap_lines (decorate : jsstring -> jsstring) (text : jsstring) (max : Z)
  : list jsstring :=
  let p := partition max (len text) in
  let see_final := parts_count_loop p - 1 in
  arr (for_loop (parts_count_loop p)
         (slice_body decorate text max see_final (arr_parts p))
         {| arr := []; liceit := 0; liceitagain := max |}).

(** [acc + a[i]]: an [undefined] element would be rendered by its name. *)
Definition get_line (a : list jsstring) (i : Z) : jsstring :=
  match js_get a i with
  | Some l => l
  | None => lit "undefined"
  end.

(** Body of the third loop: lines separated by a newline, none after the
    last one. *)
Definition join_body (a : list jsstring) (see_final_arr : Z) (i : Z) (acc : jsstring)
  : flow jsstring :=
  if i =? see_final_arr then Break (acc ++ get_line a i)
  else Next (acc ++ get_line a i ++ newline).

Definition join_lines (a : list jsstring) : jsstring :=
  let see_final_arr := Z.of_nat (List.length a) - 1 in
  for_loop (Z.of_nat (List.length a)) (join_body a see_final_arr) [].

(** The padding loops of the short branch; their result is never used. *)
Definition pad_body (i : Z) (spacessums : jsstring) : flow jsstring :=
  Next (spacessums ++ space).

Definition title_line (chunk : jsstring) : jsstring :=
  wall ++ space ++ lit " *" ++ chunk ++ lit "* ".

Definition description_line (chunk : jsstring) : jsstring :=
  wall ++ space ++ chunk.

(** The value [title_embed] computed by setTitle for a string argument. *)
Definition title_embed (max : Z) (title : jsstring) : jsstring :=
  let moremax := max + 1 in
  let lenstr := len title in
  if lenstr >? max then
    join_lines (wrap_lines title_line title max)
  else if lenstr <? moremax then
    let getspaces := max - lenstr in
    if getspaces =? 0 then
      let spacessums := for_loop getspaces pad_body space in
      title_line title
    else
      let spacessums := for_loop getspaces pad_body [] in
      title_line title
  else [].

(** The value [desc_embed] computed by setDescription for a non-empty
    string argument. *)
Definition desc_embed (max : Z) (description : jsstring) : jsstring :=
  let moremax := max + 1 in
  let lenstr := len description in
  if lenstr >? max then
    newline ++ join_lines (wrap_lines description_line description max) ++ newline
  else if lenstr <? moremax then
    let getspaces := max - lenstr in
    if getspaces =? 0 then
      let spacessums := for_loop getspaces pad_body space in
      newline ++ description_line description ++ newline
    else
      let spacessums := for_loop getspaces pad_body [] in
      newline ++ description_line description ++ newline
  else [].

(* ================================================================= *)
(** ** The embed and its methods *)

(** The [px] property: [null], a number given to the constructor, or the
    size record [{char, line}] written by sizeEmbed (either entry may be
    [null]). *)
Inductive px_value :=
| PxNull
| PxNum (n : num)
| PxSize (char : option Z) (line : option jsstring).

(** The [timestamp] property: [null], the time value computed by the
    constructor, or the text written by setTimestamp. *)
Inductive ts_value :=
| TsNull
| TsNumber (n : num)
| TsString (s : jsstring).

Record EmbedField := {
  name : jsstring;
  value : jsstring
}.

Record MessageEmbed := {
  px : px_value;
  title : option jsstring;
  description : option jsstring;
  timestamp : ts_value;
  fields : list EmbedField;
  footer : option jsstring
}.

Inductive error :=
| RangeError (msg : string)
| TypeError (msg : string).

Inductive completion (A : Type) :=
| Return (a : A)
| Throw (e : error).
Arguments Return {A} a.
Arguments Throw {A} e.

(** What a chainable method hands back: [this], or nothing. *)
Inductive retval :=
| RetThis
| RetUndefined.

(** A method runs on the receiver and leaves it in a state of its own,
    whether it returns or throws. *)
Definition method (A : Type) := MessageEmbed -> completion A * MessageEmbed.

Definition ret {A : Type} (a : A) : method A := fun this => (Return a, this).
Definition throw {A : Type} (e : error) : method A := fun this => (Throw e, this).
Definition bind {A B : Type} (m : method A) (k : A -> method B) : method B :=
  fun this =>
    match m this with
    | (Return a, this') => k a this'
    | (Throw e, this') => (Throw e, this')
    end.
Definition get_this : method MessageEmbed := fun this => (Return this, this).
Definition assign (f : MessageEmbed -> MessageEmbed) : method unit :=
  fun this => (Return tt, f this).

Notation "x <- m ;; k" := (bind m (fun x => k))
  (at level 61, m at next level, right associativity).
Notation "m ;;; k" := (bind m (fun _ => k))
  (at level 61, right associativity).

Definition set_px (v : px_value) (this : MessageEmbed) : MessageEmbed :=
  {| px := v; title := title this; description := description this;
     timestamp := timestamp this; fields := fields this; footer := footer this |}.
Definition set_title (v : option jsstring) (this : MessageEmbed) : MessageEmbed :=
  {| px := px this; title := v; description := description this;
     timestamp := timestamp this; fields := fields this; footer := footer this |}.
Definition set_description (v : option jsstring) (this : MessageEmbed) : MessageEmbed :=
  {| px := px this; title := title this; description := v;
     timestamp := timestamp this; fields := fields this; footer := footer this |}.
Definition set_timestamp (v : ts_value) (this : MessageEmbed) : MessageEmbed :=
  {| px := px this; title := title this; description := description this;
     timestamp := v; fields := fields this; footer := footer this |}.
Definition set_fields (v : list EmbedField) (this : MessageEmbed) : MessageEmbed :=
  {| px := px this; title := title this; description := description this;
     timestamp := timestamp this; fields := v; footer := footer this |}.
Definition set_footer (v : option jsstring) (this : MessageEmbed) : MessageEmbed :=
  {| px := px this; title := title this; description := description this;
     timestamp := timestamp this; fields := fields this; footer := v |}.

Definition dash_body (i : Z) (line_convert : jsstring) : flow jsstring :=
  Next (line_convert ++ dash).

(** sizeEmbed (lines 103-132). The guard of the first branch negates
    [typeof px] before comparing it with ["number"]. A call that enters
    neither branch falls off the end of the function. The range check has
    no integer test; fractional arguments, which it would let through, are
    not among the numbers of this model. *)
Definition sizeEmbed (px : jsval) : method retval :=
  if bool_strict_eq_string (not_string (typeof px)) "number" && is_undefined px then
    let nopx := PxSize None None in
    assign (set_px nopx) ;;; ret RetThis
  else
    match px with
    | JNumber (Num n) =>
        if (n >? 2) && (n <? 47) then
          let mathnum := n - 4 in
          let fixmath := Z.abs mathnum in
          let line_convert := for_loop fixmath dash_body [] in
          let embedsize := PxSize (Some n) (Some line_convert) in
          assign (set_px embedsize) ;;; ret RetThis
        else
          throw (RangeError "MessageEmbed sizeEmbed string cannot be less than 3 and greater than 47.")
    | JNumber NaN =>
        (* both comparisons with NaN are false *)
        throw (RangeError "MessageEmbed sizeEmbed string cannot be less than 3 and greater than 47.")
    | _ => ret RetUndefined
    end.

(** [size_embed.char] : a number has no such property. *)
Definition char_of (size_embed : px_value) : option Z :=
  match size_embed with
  | PxSize c _ => c
  | _ => None
  end.

(** [let max = 28; if (size_embed !== null) max = size_embed.char ?? max] *)
Definition effective_max (size_embed : px_value) : Z :=
  let max := 28 in
  match size_embed with
  | PxNull => max
  | _ => match char_of size_embed with
         | Some c => c
         | None => max
         end
  end.

(** setTitle (lines 312-408) *)
Definition setTitle (title : jsval) : method retval :=
  sizeEmbed JUndefined ;;;
  this <- get_this ;;
  let max := effective_max (px this) in
  match title with
  | JString title =>
      assign (set_title (Some (title_embed max title))) ;;; ret RetThis
  | _ => throw (TypeError "MessageEmbed title must be a string.")
  end.

(** setDescription (lines 159-261) *)
Definition setDescription (description : jsval) : method retval :=
  sizeEmbed JUndefined ;;;
  this <- get_this ;;
  let max := effective_max (px this) in
  match description with
  | JString description =>
      let lenstr := len description in
      if lenstr <? 1 then
        throw (TypeError "MessageEmbed description must be non-empty strings.")
      else
        assign (set_description (Some (desc_embed max description))) ;;; ret RetThis
  | _ => throw (TypeError "MessageEmbed description must be a string.")
  end.

(** setFooter (lines 268-286) *)
Definition setFooter (footer : jsval) : method retval :=
  match footer with
  | JString footer =>
      let lenstr := len footer in
      if lenstr >? 20 then
        throw (RangeError "MessageEmbed footer string cannot be greater than 20.")
      else
        let footer_embed := wall ++ space ++ lit "```" ++ footer ++ lit "```" in
        assign (set_footer (Some footer_embed)) ;;; ret RetThis
  | _ => throw (TypeError "MessageEmbed footer must be a string.")
  end.

(** What [new Date()] reports at the time of the call. *)
Record clock := {
  getMonth : Z;
  getDate : Z;
  getFullYear : Z
}.

(** setTimestamp (lines 294-305) *)
Definition setTimestamp (today : clock) (timestamp : jsval) : method retval :=
  let timestap_embed :=
    if is_undefined timestamp then
      let date := string_of_Z (getMonth today) ++ lit "/"
                  ++ string_of_Z (getDate today + 1) ++ lit "/"
                  ++ string_of_Z (getFullYear today) in
      lit "  *" ++ [8226%N] ++ lit "*  " ++ date
    else [] in
  assign (set_timestamp (TsString timestap_embed)) ;;; ret RetThis.

(** The snapshot returned by toJSON. Its [timestamp] entry is the value of
    [this.timestamp && new Date(this.timestamp)]: the stored value itself
    when that is falsy, a Date built from it otherwise. *)
Inductive json_timestamp :=
| Stored (v : ts_value)
| DateOf (v : ts_value).

Record APIEmbed := {
  json_px : px_value;
  json_title : option jsstring;
  json_description : option jsstring;
  json_timestamp_of : json_timestamp;
  json_fields : list EmbedField;
  json_footer : option jsstring
}.

Definition truthy (v : ts_value) : bool :=
  match v with
  | TsNull => false
  | TsNumber (Num z) => negb (z =? 0)
  | TsNumber NaN => false
  | TsString [] => false
  | TsString (_ :: _) => true
  end.

(** toJSON (lines 414-423) *)
Definition toJSON (this : MessageEmbed) : APIEmbed :=
  {| json_px := px this;
     json_title := title this;
     json_description := description this;
     json_timestamp_of :=
       if truthy (timestamp this) then DateOf (timestamp this)
       else Stored (timestamp this);
     json_fields := fields this;
     json_footer := footer this |}.

(* ================================================================= *)
(** ** Fields and construction *)

#[local] Set Warnings "-register-all".

(** What a caller can put in a field list: an object with [name] and
    [value] entries, a nested array, or [null]/[undefined]. *)
Inductive item :=
| Field (name value : jsval)
| Items (l : list item)
| Nullish.

(** [Array.prototype.flat(depth)] *)
Fixpoint flat (depth : nat) : list item -> list item :=
  fix go (l : list item) : list item :=
    match l with
    | [] => []
    | Items sub :: rest =>
        match depth with
        | O => Items sub :: go rest
        | S d => flat d sub ++ go rest
        end
    | x :: rest => x :: go rest
    end.

(** [Array.prototype.map] with a callback that may throw: the first throw
    ends the traversal. *)
Fixpoint map_throwing {A B : Type} (f : A -> completion B) (l : list A)
  : completion (list B) :=
  match l with
  | [] => Return []
  | x :: rest =>
      match f x with
      | Throw e => Throw e
      | Return y =>
          match map_throwing f rest with
          | Throw e => Throw e
          | Return ys => Return (y :: ys)
          end
      end
  end.

Record EmbedData := {
  data_px : option px_value;
  data_title : option jsstring;
  data_description : option jsstring;
  (** [None] when the record has no [timestamp] key, otherwise the time
      value of [new Date(data.timestamp)] *)
  data_timestamp : option num;
  data_fields : option (list item);
  data_footer : option jsstring
}.

Section WithUtil.

(** [Util.verifyString(data, error, errorMessage, allowEmpty)] and
    [Util.cloneObject] live in ./Util, outside this file. *)
Variable verifyString : jsval -> (string -> error) -> string -> bool -> completion jsstring.
Variable cloneObject : item -> EmbedField.

(** normalizeField (lines 431-436) *)
Definition normalizeField (name value : jsval) : completion EmbedField :=
  match verifyString name RangeError "EMBED_FIELD_NAME" false with
  | Throw e => Throw e
  | Return n =>
      match verifyString value RangeError "EMBED_FIELD_VALUE" false with
      | Throw e => Throw e
      | Return v => Return {| name := n; value := v |}
      end
  end.

(** The callback of normalizeFields: reading [field.name] throws on
    [null]/[undefined] and yields [undefined] on an array. *)
Definition normalize_item (field : item) : completion EmbedField :=
  match field with
  | Field n v => normalizeField n v
  | Items _ => normalizeField JUndefined JUndefined
  | Nullish => Throw (TypeError "Cannot read properties of undefined (reading 'name')")
  end.

(** normalizeFields (lines 443-445), on its rest-parameter array *)
Definition normalizeFields (fields : list item) : completion (list EmbedField) :=
  map_throwing normalize_item (flat 2 fields).

(** addFields (lines 149-152): the argument of [push] is evaluated in
    full before anything is pushed. *)
Definition addFields (new_fields : list item) : method retval :=
  match normalizeFields [Items new_fields] with
  | Throw e => throw e
  | Return normalized =>
      assign (fun this => set_fields (fields this ++ normalized) this) ;;; ret RetThis
  end.

(** addField (lines 140-142) *)
Definition addField (name value : jsval) : method retval :=
  addFields [Field name value].

(** The constructor and its #setup (lines 16-67). [??] turns a missing
    entry into [null]. *)
Definition setup (data : EmbedData) (skipValidation : bool) : completion MessageEmbed :=
  let this_px := match data_px data with Some v => v | None => PxNull end in
  let this_title := data_title data in
  let this_description := data_description data in
  let this_timestamp :=
    match data_timestamp data with
    | Some t => TsNumber t
    | None => TsNull
    end in
  let this_fields :=
    match data_fields data with
    | Some fs =>
        if skipValidation then Return (map cloneObject fs)
        else normalizeFields [Items fs]
    | None => Return []
    end in
  match this_fields with
  | Throw e => Throw e
  | Return fs =>
      Return {| px := this_px; title := this_title; description := this_description;
                timestamp := this_timestamp; fields := fs;
                footer := data_footer data |}
  end.

(** A call of one of the mutators. *)
Inductive call :=
| CallSizeEmbed (px : jsval)
| CallAddField (name value : jsval)
| CallAddFields (new_fields : list item)
| CallSetDescription (description : jsval)
| CallSetFooter (footer : jsval)
| CallSetTimestamp (today : clock) (timestamp : jsval)
| CallSetTitle (title : jsval).

Definition invoke (c : call) : method retval :=
  match c with
  | CallSizeEmbed v => sizeEmbed v
  | CallAddField n v => addField n v
  | CallAddFields l => addFields l
  | CallSetDescription v => setDescription v
  | CallSetFooter v => setFooter v
  | CallSetTimestamp today v => setTimestamp today v
  | CallSetTitle v => setTitle v
  end.

(** A caller that goes on after a throw keeps working on the state the
    failed call left. *)
Definition run (calls : list call) (this : MessageEmbed) : MessageEmbed :=
  fold_left (fun e c => snd (invoke c e)) calls this.

End WithUtil.

(** A sizeEmbed call that the range check lets through. *)
Definition resizes (c : call) : bool :=
  match c with
  | CallSizeEmbed (JNumber (Num n)) => (n >? 2) && (n <? 47)
  | _ => false
  end.

(* ================================================================= *)
(** ** What the text is compared with *)

(** [l] with [sep] between consecutive elements. *)
Fixpoint join (sep : jsstring) (l : list jsstring) : jsstring :=
  match l with
  | [] => []
  | [x] => x
  | x :: rest => x ++ sep ++ join sep rest
  end.

(** [q] consecutive pieces of [w] code units each, followed by whatever
    comes after them. *)
Definition chunks (w q : nat) (s : jsstring) : list jsstring :=
  map (fun m => firstn w (skipn (m * w) s)) (seq 0 q) ++ [skipn (q * w) s].

(** The pieces the wrapping loops cut a text into: a text that fits is one
    piece, a longer one gives [len / max] full pieces and the rest. *)
Definition pieces (max : Z) (s : jsstring) : list jsstring :=
  if len s >? max then chunks (Z.to_nat max) (Z.to_nat (len s / max)) s
  else [s].

(** Removing what [title_line] and [description_line] put around a piece. *)
Definition strip_title_line (line : jsstring) : jsstring :=
  removelast (removelast (skipn 4 line)).

Definition strip_description_line (line : jsstring) : jsstring :=
  skipn 2 line.

(** The lines of a text: what lies between its newlines
    ([text.split("\n")]). *)
Fixpoint split_lines (text : jsstring) : list jsstring :=
  match text with
  | [] => [[]]
  | c :: rest =>
      if (c =? 10)%N then [] :: split_lines rest
      else match split_lines rest with
           | l :: ls => (c :: l) :: ls
           | [] => [[c]]
           end
  end.

(* ================================================================= *)
(** ** Comparison of embeds *)

(** [a === b] on two strings: same code units. *)
Fixpoint str_eqb (a b : jsstring) : bool :=
  match a, b with
  | [], [] => true
  | x :: a', y :: b' => (x =? y)%N && str_eqb a' b'
  | _, _ => false
  end.

(** [a === b] on two values that are a string or [null]. *)
Definition nullable_eqb (a b : option jsstring) : bool :=
  match a, b with
  | None, None => true
  | Some x, Some y => str_eqb x y
  | _, _ => false
  end.

(** [a === b] on two numbers: [NaN] equals nothing, itself included. *)
Definition num_eqb (a b : num) : bool :=
  match a, b with
  | Num x, Num y => x =? y
  | _, _ => false
  end.

(** [a === b] on two [px] entries. Two size records are equal only when
    they are one and the same object, which the values of the model cannot
    tell: [same_object] says so. *)
Definition px_strict_eq (same_object : bool) (a b : px_value) : bool :=
  match a, b with
  | PxNull, PxNull => true
  | PxNum x, PxNum y => num_eqb x y
  | PxSize _ _, PxSize _ _ => same_object
  | _, _ => false
  end.

Definition ts_strict_eq (a b : ts_value) : bool :=
  match a, b with
  | TsNull, TsNull => true
  | TsNumber x, TsNumber y => num_eqb x y
  | TsString x, TsString y => str_eqb x y
  | _, _ => false
  end.

(** _fieldEquals (lines 93-95) *)
Definition _fieldEquals (field other : EmbedField) : bool :=
  str_eqb (name field) (name other) && str_eqb (value field) (value other).

(** [this.fields.every((field, i) => this._fieldEquals(field, embed.fields[i]))]
    from index [i] on: reading [.name] of a missing element throws. *)
Fixpoint every_field (other_fields : list EmbedField) (i : Z) (l : list EmbedField)
  : completion bool :=
  match l with
  | [] => Return true
  | field :: rest =>
      match js_get other_fields i with
      | None => Throw (TypeError "Cannot read properties of undefined (reading 'name')")
      | Some other =>
          if _fieldEquals field other then every_field other_fields (i + 1) rest
          else Return false
      end
  end.

(** equals (lines 74-84): a chain of [&&], left to right. *)
Definition equals (same_px : bool) (this embed : MessageEmbed) : completion bool :=
  if negb (px_strict_eq same_px (px this) (px embed)) then Return false
  else if negb (nullable_eqb (title this) (title embed)) then Return false
  else if negb (nullable_eqb (description this) (description embed)) then Return false
  else if negb (ts_strict_eq (timestamp this) (timestamp embed)) then Return false
  else if negb (Z.of_nat (List.length (fields this)) =? Z.of_nat (List.length (fields embed)))
  then Return false
  else
    match every_field (fields embed) 0 (fields this) with
    | Throw e => Throw e
    | Return false => Return false
    | Return true => Return (nullable_eqb (footer this) (footer embed))
    end.

(** Two field lists that agree element by element under [_fieldEquals]. *)
Fixpoint fields_eqb (l1 l2 : list EmbedField) : bool :=
  match l1, l2 with
  | [], [] => true
  | f :: r1, o :: r2 => _fieldEquals f o && fields_eqb r1 r2
  | _, _ => false
  end.

(** A constructor record with its [fields] entry taken out. *)
Definition without_fields (data : EmbedData) : EmbedData :=
  {| data_px := data_px data; data_title := data_title data;
     data_description := data_description data;
     data_timestamp := data_timestamp data;
     data_fields := None; data_footer := data_footer data |}.

(** A [px] or [timestamp] entry that is [NaN]. *)
Definition px_is_nan (v : px_value) : bool :=
  match v with
  | PxNum NaN => true
  | _ => false
  end.

Definition ts_is_nan (v : ts_value) : bool :=
  match v with
  | TsNumber NaN => true
  | _ => false
  end.

(* ================================================================= *)
(** ** Reading a stored text back *)

(** The argument of setTitle, from the text it stored: the lines, each
    without its decoration, put end to end. *)
Definition dewrap_title (text : jsstring) : jsstring :=
  List.concat (map strip_title_line (split_lines text)).

(** The same for setDescription, whose text has a blank line before and
    after the decorated ones. *)
Definition dewrap_description (text : jsstring) : jsstring :=
  List.concat (map strip_description_line (removelast (tl (split_lines text)))).

(** A field object, as opposed to a nested array or a missing element. *)
Definition is_plain (it : item) : bool :=
  match it with
  | Field _ _ => true
  | _ => false
  end.

(** ceil(a / b) for a positive [b]. *)
Definition ceil_div (a b : Z) : Z := (a + b - 1) / b.

(* ================================================================= *)
(** ** Loop invariants *)

(** The first [q] positive multiples of [max]. *)
Definition multiples (max : Z) (q : nat) : list num :=
  map (fun m => Num (max * Z.of_nat m)) (seq 1 q).

(** Invariant of the first loop. Before iteration [j]: every multiple of
    [max] below [j] has been recorded. After the last iteration: the end of
    the text as well. *)
Definition partition_inv (max lenstr : Z) (j : Z) (st : partition_state) : Prop :=
  (j <= lenstr ->
   exists q : nat,
     (q = 0%nat \/ max * Z.of_nat q < j) /\ j <= max * (Z.of_nat q + 1) /\
     parts st = max * (Z.of_nat q + 1) /\
     parts_count_loop st = Z.of_nat q /\
     help_loop st = false /\
     arr_parts st = multiples max q) /\
  (j = lenstr + 1 ->
   exists q : nat,
     max * Z.of_nat q <= lenstr < max * (Z.of_nat q + 1) /\
     parts_count_loop st = Z.of_nat q /\
     help_loop st = true /\
     arr_parts st = multiples max q ++ [Num lenstr]).

(** Invariant of the second loop: [j] full-width slices have been pushed. *)
Definition slice_inv (decorate : jsstring -> jsstring) (text : jsstring) (max : Z)
    (j : Z) (st : slice_state) : Prop :=
  0 <= j <= Z.of_nat (Z.to_nat (len text / max)) /\
  arr st = map (fun m => decorate (firstn (Z.to_nat max) (skipn (m * Z.to_nat max) text)))
             (seq 0 (Z.to_nat j)) /\
  liceit st = max * j /\
  liceitagain st = max * (j + 1).

(** Invariant of the third loop: the first [j] lines of [init] have been
    appended, each followed by a newline. *)
Definition join_inv (init : list jsstring) (j : Z) (acc : jsstring) : Prop :=
  exists pre post,
    init = pre ++ post /\ Z.of_nat (List.length pre) = j /\
    acc = List.concat (map (fun l => l ++ newline) pre).

(* ================================================================= *)
(** ** Sample embeds and the missing helpers *)

(** The embed built from an empty record. *)
Definition new_embed : MessageEmbed :=
  {| px := PxNull; title := None; description := None; timestamp := TsNull;
     fields := []; footer := None |}.

Definition no_data : EmbedData :=
  {| data_px := None; data_title := None; data_description := None;
     data_timestamp := None; data_fields := None; data_footer := None |}.

(** Modelled from the spec: Util.verifyString is not part of this file; the
    spec describes it as the check that a field entry is a non-empty
    string, failing with the error kind it is given. *)
Definition verifyString_nonempty (data : jsval) (error : string -> error)
    (errorMessage : string) (allowEmpty : bool) : completion jsstring :=
  match data with
  | JString s =>
      if negb allowEmpty && (len s =? 0) then Throw (error errorMessage)
      else Return s
  | _ => Throw (error errorMessage)
  end.

(** Modelled from the spec: Util.cloneObject is not part of this file; it
    copies an already validated field record. *)
Definition cloneObject_field (it : item) : EmbedField :=
  match it with
  | Field (JString n) (JString v) => {| name := n; value := v |}
  | _ => {| name := []; value := [] |}
  end.

(** The embed after [sizeEmbed(5)] on a fresh one. *)
Definition embed5 : MessageEmbed :=
  snd (sizeEmbed (JNumber (Num 5)) new_embed).

(** The reading of the snapshot's timestamp that the specification gives:
    a Date when the stored value is truthy, [null] otherwise. *)
Definition timestamp_date_or_null (this : MessageEmbed) : Prop :=
  json_timestamp_of (toJSON this)
  = if truthy (timestamp this) then DateOf (timestamp this) else Stored TsNull.

(* ================================================================= *)
(** ** Loop reasoning *)

Section Loops.

Context {St : Type}.
Variable body : Z -> St -> flow St.

(** A loop whose iterations all go on carries an invariant from the
    first index to the one after the last. *)
Lemma for_from_invariant (P : Z -> St -> Prop) :
  forall (n : nat) (i : Z) (s : St),
    P i s ->
    (forall j st, i <= j < i + Z.of_nat n -> P j st ->
                  exists st', body j st = Next st' /\ P (j + 1) st') ->
    P (i + Z.of_nat n) (for_from n i body s).
Proof.
  induction n as [|n IH]; intros i s Hs Hstep.
  - simpl. replace (i + 0) with i by lia. exact Hs.
  - destruct (Hstep i s) as (st' & Hb & Hst'); [lia | exact Hs |].
    cbn [for_from]. rewrite Hb.
    replace (i + Z.of_nat (S n)) with ((i + 1) + Z.of_nat n) by lia.
    apply IH; [exact Hst' |].
    intros j st Hj. apply Hstep. lia.
Qed.

(** A loop that goes on for [k] iterations and then leaves: what holds of
    the state at the break holds of the result. *)
Lemma for_from_break (P : Z -> St -> Prop) (Q : St -> Prop) :
  forall (k n : nat) (i : Z) (s : St),
    (k < n)%nat ->
    P i s ->
    (forall j st, i <= j < i + Z.of_nat k -> P j st ->
                  exists st', body j st = Next st' /\ P (j + 1) st') ->
    (forall st, P (i + Z.of_nat k) st ->
                exists st', body (i + Z.of_nat k) st = Break st' /\ Q st') ->
    Q (for_from n i body s).
Proof.
  induction k as [|k IH]; intros n i s Hlt Hs Hstep Hlast.
  - destruct n as [|n]; [lia |].
    replace (i + Z.of_nat 0) with i in Hlast by lia.
    destruct (Hlast s Hs) as (st' & Hb & Hq).
    cbn [for_from]. rewrite Hb. exact Hq.
  - destruct n as [|n]; [lia |].
    destruct (Hstep i s) as (st' & Hb & Hst'); [lia | exact Hs |].
    cbn [for_from]. rewrite Hb.
    apply IH; [lia | exact Hst' | |].
    + intros j st Hj. apply Hstep. lia.
    + intros st Hst.
      replace (i + 1 + Z.of_nat k) with (i + Z.of_nat (S k)) in * by lia.
      apply Hlast. exact Hst.
Qed.

End Loops.

(* ================================================================= *)
(** ** The first loop: the recorded positions *)

Lemma multiples_length max q : List.length (multiples max q) = q.
Proof. unfold multiples. rewrite length_map, length_seq. reflexivity. Qed.

Lemma multiples_succ max q :
  multiples max (S q) = multiples max q ++ [Num (max * Z.of_nat (S q))].
Proof. unfold multiples. rewrite seq_S, map_app. reflexivity. Qed.

Lemma js_get_app_last {A : Type} (l : list A) (x : A) :
  js_get (l ++ [x]) (Z.of_nat (List.length l)) = Some x.
Proof.
  unfold js_get.
  destruct (Z.ltb_spec (Z.of_nat (List.length l)) 0) as [H|_]; [lia |].
  rewrite Nat2Z.id, nth_error_app2 by lia.
  rewrite Nat.sub_diag. reflexivity.
Qed.

Lemma js_get_app_left {A : Type} (l r : list A) (i : Z) :
  0 <= i < Z.of_nat (List.length l) ->
  js_get (l ++ r) i = js_get l i.
Proof.
  intros Hi. unfold js_get.
  destruct (Z.ltb_spec i 0) as [H|_]; [lia |].
  apply nth_error_app1. lia.
Qed.

Lemma multiples_last max q :
  (1 <= q)%nat ->
  js_get (multiples max q) (Z.of_nat (List.length (multiples max q)) - 1)
  = Some (Num (max * Z.of_nat q)).
Proof.
  intros Hq. destruct q as [|q]; [lia |].
  rewrite multiples_succ, length_app, multiples_length. cbn [List.length].
  replace (Z.of_nat (q + 1) - 1) with (Z.of_nat (List.length (multiples max q)))
    by (rewrite multiples_length; lia).
  apply js_get_app_last.
Qed.

Section Partition.

Variables max lenstr : Z.
Hypothesis max_pos : 1 <= max.
Hypothesis long : max <= lenstr.

Lemma partition_body_inv (j : Z) (st : partition_state) :
  0 <= j < lenstr + 1 ->
  (partition_inv max lenstr) j st ->
  exists st', partition_body max lenstr j st = Next st' /\ (partition_inv max lenstr) (j + 1) st'.
Proof.
  intros Hj [Hrun _].
  destruct Hrun as (q & Hq & Hup & Hparts & Hcount & Hhelp & Harr); [lia |].
  unfold partition_body.
  set (st1 := if j =? parts st then _ else st).
  (* the state after the first test, described by the number q1 of
     positions recorded so far *)
  assert (exists q1 : nat,
    (q1 = 0%nat \/ max * Z.of_nat q1 < j + 1) /\
    j + 1 <= max * (Z.of_nat q1 + 1) /\
    parts st1 = max * (Z.of_nat q1 + 1) /\
    parts_count_loop st1 = Z.of_nat q1 /\
    help_loop st1 = false /\
    arr_parts st1 = multiples max q1) as (q1 & Hq1 & Hup1 & Hparts1 & Hcount1 & Hhelp1 & Harr1).
  { subst st1. destruct (Z.eqb_spec j (parts st)) as [E|NE].
    - exists (S q). cbn [parts parts_count_loop help_loop arr_parts].
      rewrite multiples_succ, Harr, Hparts, Hcount, Hhelp.
      repeat split; try lia.
      replace j with (max * Z.of_nat (S q)) by lia. reflexivity.
    - exists q. repeat split; try assumption; lia. }
  clearbody st1. cbn zeta.
  destruct (Z.eqb_spec j lenstr) as [E|NE].
  - eexists. split; [reflexivity |].
    split; [intros; lia |]. intros _.
    exists q1. cbn [parts_count_loop help_loop arr_parts].
    assert (1 <= q1)%nat by nia.
    rewrite Harr1, multiples_last by assumption.
    cbn [js_sub js_add].
    replace (j - max * Z.of_nat q1 + max * Z.of_nat q1) with lenstr by lia.
    repeat split; try lia; assumption.
  - eexists. split; [reflexivity |].
    split; [| intros; lia]. intros _.
    exists q1. repeat split; assumption.
Qed.

Lemma partition_spec :
  parts_count_loop (partition max lenstr) = lenstr / max + 1 /\
  arr_parts (partition max lenstr)
  = multiples max (Z.to_nat (lenstr / max)) ++ [Num lenstr].
Proof.
  unfold partition, for_loop.
  set (st0 := {| parts := max; parts_count := 0; parts_count_loop := 0;
                 help_loop := false; final_count := Num 0; arr_parts := [] |}).
  pose proof (for_from_invariant (partition_body max lenstr) (partition_inv max lenstr)
                (Z.to_nat (lenstr + 1)) 0 st0) as Hinv.
  cbn zeta.
  destruct Hinv as [_ Hend].
  - split; [| intros; lia]. intros _. exists 0%nat.
    cbn. repeat split; lia.
  - intros j st Hj. apply partition_body_inv. lia.
  - destruct Hend as (q & Hq & Hcount & Hhelp & Harr); [lia |].
    rewrite Hhelp. cbn [parts_count_loop arr_parts].
    assert (Hdiv : lenstr / max = Z.of_nat q).
    { symmetry. apply Z.div_unique with (r := lenstr - max * Z.of_nat q); lia. }
    rewrite Hdiv, Nat2Z.id, Hcount, Harr. split; reflexivity.
Qed.

End Partition.

(* ================================================================= *)
(** ** The second loop: the slices *)

Lemma slice_inside (s : jsstring) (a b : Z) :
  0 <= a <= b -> b <= len s ->
  slice s (Some (Num a)) (Some (Num b))
  = firstn (Z.to_nat (b - a)) (skipn (Z.to_nat a) s).
Proof.
  intros Hab Hb. unfold slice. cbn [to_integer].
  destruct (Z.ltb_spec a 0) as [H|_]; [lia |].
  destruct (Z.ltb_spec b 0) as [H|_]; [lia |].
  rewrite (Z.min_l a), (Z.min_l b), Z.max_l by lia.
  reflexivity.
Qed.

Lemma slice_to_end (s : jsstring) (a : Z) :
  0 <= a <= len s ->
  slice s (Some (Num a)) (Some (Num (len s))) = skipn (Z.to_nat a) s.
Proof.
  intros Ha. rewrite slice_inside by lia.
  apply firstn_all2. rewrite length_skipn. unfold len. lia.
Qed.

Section Slices.

Variable decorate : jsstring -> jsstring.
Variable text : jsstring.
Variable max : Z.
Hypothesis max_pos : 1 <= max.
Hypothesis long : max <= len text.

Local Abbreviation w := (Z.to_nat max).
Local Abbreviation q := (Z.to_nat (len text / max)).

Lemma q_bounds : max * Z.of_nat q <= len text < max * (Z.of_nat q + 1).
Proof.
  rewrite Z2Nat.id by (apply Z.div_pos; unfold len; lia).
  pose proof (Z.mul_div_le (len text) max ltac:(lia)).
  pose proof (Z.mul_succ_div_gt (len text) max ltac:(lia)).
  lia.
Qed.

Lemma q_pos : (1 <= q)%nat.
Proof. pose proof q_bounds. nia. Qed.

Lemma slice_body_full (j : Z) (st : slice_state) :
  0 <= j < Z.of_nat q ->
  (slice_inv decorate text max) j st ->
  exists st',
    slice_body decorate text max (Z.of_nat q) (multiples max q ++ [Num (len text)]) j st
    = Next st' /\ (slice_inv decorate text max) (j + 1) st'.
Proof.
  intros Hj (_ & Harr & Hl & Hla).
  unfold slice_body.
  destruct (Z.eqb_spec j (Z.of_nat q)) as [E|_]; [lia |].
  eexists. split; [reflexivity |].
  pose proof q_bounds as Hq.
  unfold slice_inv. cbn [arr liceit liceitagain].
  repeat split; try lia.
  rewrite Harr, Hl, Hla.
  replace (Z.to_nat (j + 1)) with (S (Z.to_nat j)) by lia.
  rewrite seq_S, map_app. cbn [map Nat.add].
  do 3 f_equal.
  rewrite slice_inside by nia.
  f_equal; [lia |].
  f_equal. nia.
Qed.

Lemma slice_body_last (st : slice_state) :
  (slice_inv decorate text max) (Z.of_nat q) st ->
  exists st',
    slice_body decorate text max (Z.of_nat q) (multiples max q ++ [Num (len text)])
      (Z.of_nat q) st
    = Break st' /\ arr st' = map decorate (chunks w q text).
Proof.
  intros (_ & Harr & _).
  unfold slice_body. rewrite Z.eqb_refl.
  eexists. split; [reflexivity |].
  cbn [arr]. pose proof q_pos as Hq1. pose proof q_bounds as Hq.
  rewrite js_get_app_left by (rewrite multiples_length; lia).
  replace (Z.of_nat q - 1)
    with (Z.of_nat (List.length (multiples max q)) - 1)
    by (rewrite multiples_length; reflexivity).
  rewrite multiples_last by exact Hq1.
  rewrite <- (multiples_length max q) at 3.
  rewrite js_get_app_last.
  rewrite slice_to_end by lia.
  rewrite Harr, Nat2Z.id.
  unfold chunks. rewrite map_app, map_map. cbn [map].
  do 4 f_equal. nia.
Qed.

Lemma wrap_lines_spec :
  wrap_lines decorate text max = map decorate (chunks w q text).
Proof.
  unfold wrap_lines.
  destruct (partition_spec max (len text) max_pos long) as [Hcount Hpos].
  rewrite Hcount, Hpos.
  assert (Hq : len text / max = Z.of_nat q).
  { rewrite Z2Nat.id; [reflexivity |]. apply Z.div_pos; unfold len; lia. }
  rewrite Hq, !Nat2Z.id. replace (Z.of_nat q + 1 - 1) with (Z.of_nat q) by lia.
  unfold for_loop.
  apply (for_from_break _ (slice_inv decorate text max)
           (fun st => arr st = map decorate (chunks w q text)) q).
  - lia.
  - unfold slice_inv. cbn. repeat split; lia.
  - intros j st Hj. apply slice_body_full. lia.
  - intros st Hst. apply slice_body_last. exact Hst.
Qed.

End Slices.

(* ================================================================= *)
(** ** The third loop: joining the lines *)

Lemma join_snoc (sep : jsstring) (init : list jsstring) (x : jsstring) :
  join sep (init ++ [x]) = List.concat (map (fun l => l ++ sep) init) ++ x.
Proof.
  induction init as [|y init IH]; [reflexivity |].
  cbn [app map List.concat]. rewrite <- !app_assoc, <- IH.
  cbn [join]. destruct (init ++ [x]) eqn:E; [| reflexivity].
  destruct init; discriminate E.
Qed.

Lemma get_line_nth (a : list jsstring) (i : Z) (x : jsstring) :
  0 <= i -> nth_error a (Z.to_nat i) = Some x -> get_line a i = x.
Proof.
  intros Hi H. unfold get_line, js_get.
  destruct (Z.ltb_spec i 0) as [Hneg|_]; [lia |].
  rewrite H. reflexivity.
Qed.

Section Joining.

Variable init : list jsstring.
Variable x : jsstring.

Local Abbreviation n := (Z.of_nat (List.length init)).

Lemma join_body_next (j : Z) (acc : jsstring) :
  0 <= j < n ->
  (join_inv init) j acc ->
  exists acc', join_body (init ++ [x]) n j acc = Next acc' /\ (join_inv init) (j + 1) acc'.
Proof.
  intros Hj (pre & post & Hsplit & Hlen & Hacc).
  unfold join_body.
  destruct (Z.eqb_spec j n) as [E|_]; [lia |].
  eexists. split; [reflexivity |].
  destruct post as [|y post].
  { apply (f_equal (@List.length _)) in Hsplit.
    rewrite app_nil_r in Hsplit. lia. }
  exists (pre ++ [y]), post. repeat split.
  - rewrite <- app_assoc. exact Hsplit.
  - rewrite length_app. cbn [List.length]. lia.
  - rewrite map_app, concat_app. cbn [map List.concat]. rewrite app_nil_r.
    rewrite Hacc. f_equal. f_equal.
    apply get_line_nth; [lia |].
    rewrite Hsplit, <- app_assoc, nth_error_app2 by lia.
    replace (Z.to_nat j - List.length pre)%nat with 0%nat by lia.
    reflexivity.
Qed.

Lemma join_body_last (acc : jsstring) :
  (join_inv init) n acc ->
  exists acc',
    join_body (init ++ [x]) n n acc = Break acc' /\
    acc' = join newline (init ++ [x]).
Proof.
  intros (pre & post & Hsplit & Hlen & Hacc).
  unfold join_body. rewrite Z.eqb_refl.
  eexists. split; [reflexivity |].
  assert (post = []) as ->.
  { apply (f_equal (@List.length _)) in Hsplit. rewrite length_app in Hsplit.
    destruct post; [reflexivity | cbn in Hsplit; lia]. }
  rewrite app_nil_r in Hsplit. subst pre.
  rewrite join_snoc, Hacc. f_equal.
  apply get_line_nth; [lia |].
  rewrite Nat2Z.id, nth_error_app2, Nat.sub_diag by lia.
  reflexivity.
Qed.

Lemma join_lines_snoc : join_lines (init ++ [x]) = join newline (init ++ [x]).
Proof.
  unfold join_lines, for_loop.
  rewrite length_app. cbn [List.length].
  replace (Z.of_nat (List.length init + 1) - 1) with n by lia.
  apply (for_from_break _ (join_inv init)
           (fun acc => acc = join newline (init ++ [x])) (List.length init)).
  - lia.
  - exists [], init. repeat split.
  - intros j acc Hj. apply join_body_next. lia.
  - intros acc Hacc. apply join_body_last. exact Hacc.
Qed.

End Joining.

Lemma join_lines_spec (a : list jsstring) : join_lines a = join newline a.
Proof.
  destruct a as [|y a]; [reflexivity |].
  destruct (exists_last (l := y :: a)) as (init & x & ->); [discriminate |].
  apply join_lines_snoc.
Qed.

(* ================================================================= *)
(** ** The pieces *)

Lemma concat_chunks (w q : nat) (s : jsstring) : List.concat (chunks w q s) = s.
Proof.
  unfold chunks. induction q as [|q IH].
  - cbn. apply app_nil_r.
  - rewrite seq_S, map_app. cbn [map Nat.add].
    rewrite <- app_assoc, concat_app in *.
    rewrite <- IH at 3. f_equal.
    cbn [app List.concat]. rewrite !app_nil_r.
    replace (S q * w)%nat with (w + q * w)%nat by lia.
    rewrite <- skipn_skipn. apply firstn_skipn.
  Qed.

Lemma concat_pieces (max : Z) (s : jsstring) : List.concat (pieces max s) = s.
Proof.
  unfold pieces. destruct (len s >? max).
  - apply concat_chunks.
  - cbn. apply app_nil_r.
Qed.

Lemma strip_title_line_inv (c : jsstring) : strip_title_line (title_line c) = c.
Proof.
  unfold strip_title_line, title_line, wall, space.
  change (lit " *") with [32%N; 42%N].
  change (lit "* ") with [42%N; 32%N].
  cbn [app skipn].
  change (c ++ [42%N; 32%N]) with (c ++ [42%N] ++ [32%N]).
  rewrite app_assoc, !removelast_last. reflexivity.
Qed.

Lemma strip_description_line_inv (c : jsstring) :
  strip_description_line (description_line c) = c.
Proof. reflexivity. Qed.

Lemma split_lines_one (l : jsstring) :
  ~ In 10%N l -> split_lines l = [l].
Proof.
  induction l as [|c l IH]; intros Hl; [reflexivity |].
  cbn [split_lines].
  destruct (N.eqb_spec c 10) as [->|_]; [exfalso; apply Hl; now left |].
  rewrite IH; [reflexivity |]. intros Hin. apply Hl. now right.
Qed.

Lemma split_lines_cut (l rest : jsstring) :
  ~ In 10%N l -> split_lines (l ++ newline ++ rest) = l :: split_lines rest.
Proof.
  induction l as [|c l IH]; intros Hl; [reflexivity |].
  cbn [split_lines app].
  destruct (N.eqb_spec c 10) as [->|_]; [exfalso; apply Hl; now left |].
  rewrite IH; [reflexivity |]. intros Hin. apply Hl. now right.
Qed.

Lemma split_lines_join (ls : list jsstring) :
  ls <> [] -> Forall (fun l => ~ In 10%N l) ls ->
  split_lines (join newline ls) = ls.
Proof.
  induction ls as [|x ls IH]; intros Hne Hls; [contradiction |].
  inversion Hls as [|? ? Hx Hrest]; subst.
  destruct ls as [|y ls].
  - apply split_lines_one. exact Hx.
  - change (join newline (x :: y :: ls)) with (x ++ newline ++ join newline (y :: ls)).
    rewrite split_lines_cut by exact Hx.
    rewrite IH; [reflexivity | discriminate | exact Hrest].
Qed.

Lemma split_lines_join_framed (ls : list jsstring) :
  ls <> [] -> Forall (fun l => ~ In 10%N l) ls ->
  split_lines (newline ++ join newline ls ++ newline) = [] :: ls ++ [[]].
Proof.
  intros Hne Hls. change (newline ++ join newline ls ++ newline)
    with ([] ++ newline ++ (join newline ls ++ newline)).
  rewrite split_lines_cut by (intros []). f_equal.
  induction ls as [|x ls IH]; [contradiction |].
  inversion Hls as [|? ? Hx Hrest]; subst.
  destruct ls as [|y ls].
  - cbn [join]. replace (x ++ newline) with (x ++ newline ++ [])
      by (now rewrite app_nil_r).
    rewrite split_lines_cut by exact Hx. reflexivity.
  - change (join newline (x :: y :: ls)) with (x ++ newline ++ join newline (y :: ls)).
    rewrite <- !app_assoc, split_lines_cut by exact Hx.
    rewrite IH; [reflexivity | discriminate | exact Hrest].
Qed.

Lemma pieces_nonempty (max : Z) (s : jsstring) : pieces max s <> [].
Proof.
  unfold pieces, chunks. destruct (len s >? max); [| discriminate].
  intros H. apply (f_equal (@List.length _)) in H.
  rewrite length_app in H. cbn in H. lia.
Qed.

(** A text without a newline is cut into pieces without a newline, and
    the decoration brings none. *)
Lemma pieces_no_newline (max : Z) (s : jsstring) :
  ~ In 10%N s -> Forall (fun c => ~ In 10%N c) (pieces max s).
Proof.
  intros Hs. apply Forall_forall. intros c Hc Hin.
  apply Hs. rewrite <- (concat_pieces max s). apply in_concat.
  exists c. split; assumption.
Qed.

Lemma title_line_no_newline (c : jsstring) :
  ~ In 10%N c -> ~ In 10%N (title_line c).
Proof.
  intros Hc Hin. unfold title_line in Hin.
  repeat (apply in_app_or in Hin as [Hin|Hin]);
    try contradiction; cbn in Hin; intuition discriminate.
Qed.

Lemma description_line_no_newline (c : jsstring) :
  ~ In 10%N c -> ~ In 10%N (description_line c).
Proof.
  intros Hc Hin. unfold description_line in Hin.
  repeat (apply in_app_or in Hin as [Hin|Hin]);
    try contradiction; cbn in Hin; intuition discriminate.
Qed.

(** Above the width, the text computed by the setters is the decorated
    pieces joined by newlines. *)
Lemma title_embed_pieces (max : Z) (s : jsstring) :
  1 <= max ->
  title_embed max s = join newline (map title_line (pieces max s)).
Proof.
  intros Hmax. unfold title_embed, pieces.
  destruct (Z.gtb_spec (len s) max) as [Hlong|Hshort].
  - rewrite join_lines_spec, wrap_lines_spec by lia. reflexivity.
  - destruct (Z.ltb_spec (len s) (max + 1)) as [_|H]; [| lia].
    destruct (max - len s =? 0); reflexivity.
Qed.

Lemma desc_embed_pieces (max : Z) (s : jsstring) :
  1 <= max ->
  desc_embed max s
  = newline ++ join newline (map description_line (pieces max s)) ++ newline.
Proof.
  intros Hmax. unfold desc_embed, pieces.
  destruct (Z.gtb_spec (len s) max) as [Hlong|Hshort].
  - rewrite join_lines_spec, wrap_lines_spec by lia. reflexivity.
  - destruct (Z.ltb_spec (len s) (max + 1)) as [_|H]; [| lia].
    destruct (max - len s =? 0); reflexivity.
Qed.

Lemma chunks_length (w q : nat) (s : jsstring) :
  List.length (chunks w q s) = S q.
Proof.
  unfold chunks. rewrite length_app, length_map, length_seq. cbn. lia.
Qed.

(** Every piece but the last is [w] long, and the last one holds what is
    left, provided the text has [q] full pieces. *)
Lemma chunks_shape (w q : nat) (s : jsstring) :
  (q * w <= List.length s)%nat ->
  exists full rest,
    chunks w q s = full ++ [rest] /\
    List.length full = q /\
    Forall (fun c => List.length c = w) full /\
    List.length rest = (List.length s - q * w)%nat.
Proof.
  intros Hq. unfold chunks. eexists _, _. split; [reflexivity |].
  rewrite length_map, length_seq, length_skipn. repeat split.
  apply Forall_map, Forall_forall. intros m Hm. apply in_seq in Hm.
  rewrite length_firstn, length_skipn. nia.
Qed.

(** A text longer than the width is cut into [len / max] full pieces plus
    a last piece of [len mod max] code units: that last piece is empty
    exactly when the width divides the length. *)
Lemma pieces_shape (max : Z) (s : jsstring) :
  1 <= max < len s ->
  exists full rest,
    pieces max s = full ++ [rest] /\
    len s / max = Z.of_nat (List.length full) /\
    Forall (fun c => len c = max) full /\
    len rest = len s mod max.
Proof.
  intros Hmax. unfold pieces.
  destruct (Z.gtb_spec (len s) max) as [_|H]; [| lia].
  assert (Hdiv : 0 <= len s / max) by (apply Z.div_pos; lia).
  pose proof (Z.mul_div_le (len s) max ltac:(lia)) as Hle.
  destruct (chunks_shape (Z.to_nat max) (Z.to_nat (len s / max)) s)
    as (full & rest & Heq & Hlen & Hfull & Hrest).
  { unfold len in *. nia. }
  exists full, rest. repeat split.
  - exact Heq.
  - rewrite Hlen, Z2Nat.id by exact Hdiv. reflexivity.
  - eapply Forall_impl; [| exact Hfull]. intros c Hc. cbn beta in Hc. unfold len. lia.
  - rewrite Z.mod_eq by lia. unfold len in *. nia.
Qed.

Lemma pieces_length (max : Z) (s : jsstring) :
  1 <= max < len s ->
  Z.of_nat (List.length (pieces max s)) = len s / max + 1.
Proof.
  intros Hmax. unfold pieces.
  destruct (Z.gtb_spec (len s) max) as [_|H]; [| lia].
  rewrite chunks_length.
  assert (0 <= len s / max) by (apply Z.div_pos; lia). lia.
Qed.

(* ================================================================= *)
(** ** The setters on a string *)

Lemma sizeEmbed_undefined_noop (this : MessageEmbed) :
  sizeEmbed JUndefined this = (Return RetUndefined, this).
Proof. reflexivity. Qed.

Lemma setTitle_string (this : MessageEmbed) (s : jsstring) :
  setTitle (JString s) this
  = (Return RetThis, set_title (Some (title_embed (effective_max (px this)) s)) this).
Proof. reflexivity. Qed.

Lemma setDescription_string (this : MessageEmbed) (s : jsstring) :
  s <> [] ->
  setDescription (JString s) this
  = (Return RetThis,
     set_description (Some (desc_embed (effective_max (px this)) s)) this).
Proof.
  intros Hs. destruct s as [|c s]; [contradiction |].
  unfold setDescription, bind. rewrite sizeEmbed_undefined_noop.
  cbn [get_this]. unfold len. cbn [List.length].
  destruct (Z.ltb_spec (Z.of_nat (S (List.length s))) 1) as [H|_]; [lia |].
  reflexivity.
Qed.

Lemma setDescription_empty (this : MessageEmbed) :
  setDescription (JString []) this
  = (Throw (TypeError "MessageEmbed description must be non-empty strings."), this).
Proof. reflexivity. Qed.

Lemma desc_embed_short (max : Z) (s : jsstring) :
  len s <= max ->
  desc_embed max s = newline ++ wall ++ space ++ s ++ newline.
Proof.
  intros Hs. unfold desc_embed.
  destruct (Z.gtb_spec (len s) max) as [H|_]; [lia |].
  destruct (Z.ltb_spec (len s) (max + 1)) as [_|H]; [| lia].
  unfold description_line. rewrite <- !app_assoc.
  destruct (max - len s =? 0); reflexivity.
Qed.

Lemma dashes (k : nat) (i : Z) (acc : jsstring) :
  for_from k i dash_body acc = acc ++ repeat 9472%N k.
Proof.
  revert i acc. induction k as [|k IH]; intros i acc.
  - cbn. now rewrite app_nil_r.
  - cbn [for_from dash_body]. rewrite IH. unfold dash.
    rewrite <- app_assoc. reflexivity.
Qed.

Example setup_no_data :
  setup verifyString_nonempty cloneObject_field no_data false = Return new_embed.
Proof. reflexivity. Qed.

Example addField_order :
  snd (addField verifyString_nonempty (JString (lit "C")) (JString (lit "D"))
         (snd (addField verifyString_nonempty (JString (lit "A")) (JString (lit "B"))
                 new_embed)))
  = set_fields [ {| name := lit "A"; value := lit "B" |};
                 {| name := lit "C"; value := lit "D" |} ] new_embed.
Proof. reflexivity. Qed.

Example embed5_px : px embed5 = PxSize (Some 5) (Some dash).
Proof. reflexivity. Qed.

(* ================================================================= *)
(** ** Wrapping *)

(** C1. Wrapping loses nothing: at every effective width between 3 and 46,
    the text stored by setTitle (and by setDescription, for a non-empty
    argument) is a list of pieces of the argument, each decorated into one
    line (wall, space, and the emphasis markers for a title), the lines
    joined by newlines (and framed by two more for a description); taking
    the decoration off each line and concatenating what remains gives the
    argument back. When the argument holds no newline of its own, these
    decorated lines are exactly the lines of the stored text. *)
Theorem wrapping_lossless (this : MessageEmbed) (s : jsstring) :
  3 <= effective_max (px this) <= 46 ->
  exists chunks : list jsstring,
    List.concat chunks = s /\
    setTitle (JString s) this
    = (Return RetThis,
       set_title (Some (join newline (map title_line chunks))) this) /\
    List.concat (map strip_title_line (map title_line chunks)) = s /\
    (s <> [] ->
     setDescription (JString s) this
     = (Return RetThis,
        set_description
          (Some (newline ++ join newline (map description_line chunks) ++ newline))
          this)) /\
    List.concat (map strip_description_line (map description_line chunks)) = s /\
    (~ In 10%N s ->
     split_lines (join newline (map title_line chunks)) = map title_line chunks /\
     split_lines (newline ++ join newline (map description_line chunks) ++ newline)
     = [] :: map description_line chunks ++ [[]]).
Proof.
  intros Hmax. exists (pieces (effective_max (px this)) s).
  assert (Hc : List.concat (pieces (effective_max (px this)) s) = s)
    by apply concat_pieces.
  assert (Hne : forall f : jsstring -> jsstring,
             map f (pieces (effective_max (px this)) s) <> []).
  { intros f H. apply map_eq_nil in H. revert H. apply pieces_nonempty. }
  split; [exact Hc |].
  split; [rewrite setTitle_string, title_embed_pieces by lia; reflexivity |].
  split.
  { rewrite map_map, (map_ext _ (fun c => c)), map_id; [exact Hc |].
    intros c. apply strip_title_line_inv. }
  split.
  { intros Hs. rewrite setDescription_string, desc_embed_pieces by (assumption || lia).
    reflexivity. }
  split.
  { rewrite map_map, (map_ext _ (fun c => c)), map_id; [exact Hc |].
    intros c. apply strip_description_line_inv. }
  intros Hs.
  pose proof (pieces_no_newline (effective_max (px this)) s Hs) as Hp.
  split.
  - apply split_lines_join; [apply Hne |].
    apply Forall_map. eapply Forall_impl; [| exact Hp].
    intros c. apply title_line_no_newline.
  - apply split_lines_join_framed; [apply Hne |].
    apply Forall_map. eapply Forall_impl; [| exact Hp].
    intros c. apply description_line_no_newline.
Qed.

Lemma wrapping_lossless_witness :
  exists chunks : list jsstring,
    List.concat chunks = lit "HelloWorld!" /\
    setTitle (JString (lit "HelloWorld!")) embed5
    = (Return RetThis,
       set_title (Some (join newline (map title_line chunks))) embed5) /\
    List.concat (map strip_title_line (map title_line chunks)) = lit "HelloWorld!" /\
    (lit "HelloWorld!" <> [] ->
     setDescription (JString (lit "HelloWorld!")) embed5
     = (Return RetThis,
        set_description
          (Some (newline ++ join newline (map description_line chunks) ++ newline))
          embed5)) /\
    List.concat (map strip_description_line (map description_line chunks))
    = lit "HelloWorld!" /\
    (~ In 10%N (lit "HelloWorld!") ->
     split_lines (join newline (map title_line chunks)) = map title_line chunks /\
     split_lines (newline ++ join newline (map description_line chunks) ++ newline)
     = [] :: map description_line chunks ++ [[]]).
Proof.
  apply (wrapping_lossless embed5 (lit "HelloWorld!")).
  vm_compute. split; discriminate.
Defined.

(** C2. Where the width divides the length the last piece is empty: with
    width 5, setDescription("HelloWorld") stores three lines, the third
    one holding no character of the argument, and the pieces are "Hello",
    "World" and the empty string, so the final piece does not have between
    1 and 5 characters. *)
Theorem chunk_shape_exact_multiple :
  setDescription (JString (lit "HelloWorld")) embed5
  = (Return RetThis,
     set_description
       (Some (newline ++ [9474%N; 8199%N] ++ lit "Hello" ++ newline
                      ++ [9474%N; 8199%N] ++ lit "World" ++ newline
                      ++ [9474%N; 8199%N] ++ newline))
       embed5) /\
  pieces 5 (lit "HelloWorld") = [lit "Hello"; lit "World"; []] /\
  desc_embed 5 (lit "HelloWorld")
  = newline ++ join newline (map description_line [lit "Hello"; lit "World"; []])
    ++ newline.
Proof. repeat split. Qed.

(** C3. Where the width divides the length there is one line more than
    ceil(len/max): with width 5, setTitle("HelloWorld") stores three lines,
    the two expected ones and a third one made of decoration only. *)
Theorem line_count_exact_multiple :
  setTitle (JString (lit "HelloWorld")) embed5
  = (Return RetThis,
     set_title
       (Some (join newline [[9474%N; 8199%N] ++ lit " *Hello* ";
                            [9474%N; 8199%N] ++ lit " *World* ";
                            [9474%N; 8199%N] ++ lit " ** "]))
       embed5) /\
  title_embed 5 (lit "HelloWorld")
  <> join newline [[9474%N; 8199%N] ++ lit " *Hello* ";
                   [9474%N; 8199%N] ++ lit " *World* "] /\
  List.length (wrap_lines title_line (lit "HelloWorld") 5) = 3%nat.
Proof.
  repeat split.
  intros H. vm_compute in H. discriminate H.
Qed.

(* ================================================================= *)
(** ** Sizing *)

(** C4. sizeEmbed without an argument changes nothing and returns nothing:
    the guard of the clearing branch is never true, so [px] keeps the value
    it had; after [sizeEmbed(5)] it is still the record of width 5, and on
    a fresh embed it is still [null], in neither case the record
    [{char: null, line: null}]. *)
Theorem sizeEmbed_no_argument_keeps_px :
  (forall this, sizeEmbed JUndefined this = (Return RetUndefined, this)) /\
  px (snd (sizeEmbed JUndefined embed5)) = PxSize (Some 5) (Some dash) /\
  px (snd (sizeEmbed JUndefined embed5)) <> PxSize None None /\
  px (snd (sizeEmbed JUndefined new_embed)) <> PxSize None None.
Proof.
  repeat split; intros H; vm_compute in H; discriminate H.
Qed.

(** C5. sizeEmbed on an integer between 3 and 46 stores the record made of
    that width and of a rule of |px-4| dashes, and returns the embed; on an
    integer below 3 or above 46 it throws a RangeError and stores
    nothing. *)
Theorem sizeEmbed_range (this : MessageEmbed) (n : Z) :
  (3 <= n <= 46 ->
   sizeEmbed (JNumber (Num n)) this
   = (Return RetThis,
      set_px (PxSize (Some n) (Some (repeat 9472%N (Z.to_nat (Z.abs (n - 4)))))) this)) /\
  (n <= 2 \/ 47 <= n ->
   exists msg, sizeEmbed (JNumber (Num n)) this = (Throw (RangeError msg), this)).
Proof.
  split; intros Hn; unfold sizeEmbed; cbn [typeof not_string bool_strict_eq_string andb].
  - destruct (Z.gtb_spec n 2) as [_|H]; [| lia].
    destruct (Z.ltb_spec n 47) as [_|H]; [| lia].
    cbn [andb]. unfold for_loop. rewrite dashes. reflexivity.
  - eexists.
    destruct (Z.gtb_spec n 2) as [H2|_]; [| reflexivity].
    destruct (Z.ltb_spec n 47) as [H47|_]; [lia | reflexivity].
Qed.

Lemma sizeEmbed_range_witness :
  sizeEmbed (JNumber (Num 3)) new_embed
  = (Return RetThis, set_px (PxSize (Some 3) (Some [9472%N])) new_embed) /\
  (exists msg, sizeEmbed (JNumber (Num 47)) embed5 = (Throw (RangeError msg), embed5)).
Proof.
  split.
  - apply (proj1 (sizeEmbed_range new_embed 3)). lia.
  - apply (proj2 (sizeEmbed_range embed5 47)). lia.
Defined.

(* ================================================================= *)
(** ** Description and footer *)

(** C6, as stated, fails on every accepted string: the code unit stored
    after the wall is the figure space U+2007 of the source's [space], not
    the ordinary space U+0020 of the claimed value. On a fresh embed
    setDescription("Hello") stores newline, wall, U+2007, "Hello", newline,
    which is not newline, wall, U+0020, "Hello", newline. *)
Lemma setDescription_short_plain_space_refuted :
  len (lit "Hello") <= effective_max (px new_embed) /\
  setDescription (JString (lit "Hello")) new_embed
  = (Return RetThis,
     set_description (Some ([10%N; 9474%N; 8199%N] ++ lit "Hello" ++ [10%N])) new_embed) /\
  description (snd (setDescription (JString (lit "Hello")) new_embed))
  <> Some ([10%N; 9474%N] ++ lit " " ++ lit "Hello" ++ [10%N]).
Proof.
  split; [vm_compute; discriminate |].
  split; [reflexivity |].
  intros H. vm_compute in H. discriminate H.
Qed.

(** C6, amended. On a string no longer than the effective width,
    setDescription throws a TypeError (and stores nothing) when the string
    is empty, and otherwise stores a newline, the wall U+2502, the figure
    space U+2007, the string as it is, and a newline. *)
Theorem setDescription_short (this : MessageEmbed) (s : jsstring) :
  len s <= effective_max (px this) ->
  (s = [] ->
   exists msg, setDescription (JString s) this = (Throw (TypeError msg), this)) /\
  (s <> [] ->
   setDescription (JString s) this
   = (Return RetThis,
      set_description (Some ([10%N; 9474%N; 8199%N] ++ s ++ [10%N])) this)).
Proof.
  intros Hlen. split.
  - intros ->. eexists. apply setDescription_empty.
  - intros Hs. rewrite setDescription_string, desc_embed_short by assumption.
    reflexivity.
Qed.

Lemma setDescription_short_witness :
  (exists msg, setDescription (JString []) embed5 = (Throw (TypeError msg), embed5)) /\
  setDescription (JString (lit "Hello")) embed5
  = (Return RetThis,
     set_description (Some ([10%N; 9474%N; 8199%N] ++ lit "Hello" ++ [10%N])) embed5).
Proof.
  split.
  - apply (proj1 (setDescription_short embed5 [] ltac:(vm_compute; discriminate))).
    reflexivity.
  - apply (proj2 (setDescription_short embed5 (lit "Hello")
                    ltac:(vm_compute; discriminate))).
    discriminate.
Defined.

(** C7, as stated, fails on every accepted string: the code unit stored
    after the wall is the figure space U+2007 of the source's [space], not
    the ordinary space U+0020 of the claimed line. setFooter("bye") stores
    wall, U+2007 and the fenced text, which is not wall, U+0020 and the
    fenced text. *)
Lemma setFooter_plain_space_refuted :
  len (lit "bye") <= 20 /\
  setFooter (JString (lit "bye")) new_embed
  = (Return RetThis,
     set_footer (Some ([9474%N; 8199%N] ++ lit "```bye```")) new_embed) /\
  footer (snd (setFooter (JString (lit "bye")) new_embed))
  <> Some ([9474%N] ++ lit " " ++ lit "```" ++ lit "bye" ++ lit "```").
Proof.
  split; [vm_compute; discriminate |].
  split; [reflexivity |].
  intros H. vm_compute in H. discriminate H.
Qed.

(** C7, amended. setFooter throws a RangeError (and stores nothing) on a
    string of more than 20 code units; on any shorter string it stores, in
    one line, the wall U+2502, the figure space U+2007 and the string
    between two code fences. *)
Theorem setFooter_limit (this : MessageEmbed) (f : jsstring) :
  (20 < len f ->
   exists msg, setFooter (JString f) this = (Throw (RangeError msg), this)) /\
  (len f <= 20 ->
   setFooter (JString f) this
   = (Return RetThis,
      set_footer (Some ([9474%N; 8199%N] ++ lit "```" ++ f ++ lit "```")) this)).
Proof.
  split; intros Hf; unfold setFooter.
  - destruct (Z.gtb_spec (len f) 20) as [_|H]; [| lia].
    eexists. reflexivity.
  - destruct (Z.gtb_spec (len f) 20) as [H|_]; [lia |].
    reflexivity.
Qed.

Lemma setFooter_limit_witness :
  (exists msg,
     setFooter (JString (repeat 120%N 21)) new_embed = (Throw (RangeError msg), new_embed)) /\
  setFooter (JString (repeat 120%N 20)) new_embed
  = (Return RetThis,
     set_footer (Some ([9474%N; 8199%N] ++ lit "```" ++ repeat 120%N 20 ++ lit "```"))
       new_embed).
Proof.
  split.
  - apply (proj1 (setFooter_limit new_embed (repeat 120%N 21))). reflexivity.
  - apply (proj2 (setFooter_limit new_embed (repeat 120%N 20))). discriminate.
Defined.

(* ================================================================= *)
(** ** Failing calls, snapshots, construction *)

Section Calls.

Variable verifyString : jsval -> (string -> error) -> string -> bool -> completion jsstring.

Lemma sizeEmbed_throw_same (v : jsval) (this this' : MessageEmbed) (e : error) :
  sizeEmbed v this = (Throw e, this') -> this' = this.
Proof.
  unfold sizeEmbed. cbn [bool_strict_eq_string andb].
  destruct v as [| |[n|]| |]; try (intros H; inversion H; reflexivity).
  destruct ((n >? 2) && (n <? 47)); intros H; inversion H. reflexivity.
Qed.

Lemma addFields_throw_same (l : list item) (this this' : MessageEmbed) (e : error) :
  addFields verifyString l this = (Throw e, this') -> this' = this.
Proof.
  unfold addFields.
  destruct (normalizeFields verifyString [Items l]); intros H; inversion H.
  reflexivity.
Qed.

Lemma invoke_throw_same (c : call) (this this' : MessageEmbed) (e : error) :
  invoke verifyString c this = (Throw e, this') -> this' = this.
Proof.
  destruct c as [v|n v|l|v|v|today v|v]; cbn [invoke].
  - apply sizeEmbed_throw_same.
  - apply addFields_throw_same.
  - apply addFields_throw_same.
  - unfold setDescription, bind. rewrite sizeEmbed_undefined_noop. cbn [get_this].
    destruct v as [| | |s|]; try (intros H; inversion H; reflexivity).
    destruct (len s <? 1); intros H; inversion H. reflexivity.
  - unfold setFooter.
    destruct v as [| | |s|]; try (intros H; inversion H; reflexivity).
    destruct (len s >? 20); intros H; inversion H. reflexivity.
  - intros H. inversion H.
  - unfold setTitle, bind. rewrite sizeEmbed_undefined_noop. cbn [get_this].
    destruct v as [| | |s|]; intros H; inversion H; reflexivity.
Qed.

(** Only a sizeEmbed call that passes the range check writes [px]. *)
Lemma invoke_keeps_px (c : call) (this : MessageEmbed) :
  resizes c = false ->
  px (snd (invoke verifyString c this)) = px this.
Proof.
  destruct c as [v|n v|l|v|v|today v|v]; cbn [invoke resizes]; intros Hc.
  - unfold sizeEmbed. cbn [bool_strict_eq_string andb].
    destruct v as [| |[n|]| |]; try reflexivity.
    rewrite Hc. reflexivity.
  - unfold addField, addFields.
    destruct (normalizeFields verifyString _); reflexivity.
  - unfold addFields.
    destruct (normalizeFields verifyString _); reflexivity.
  - unfold setDescription, bind. rewrite sizeEmbed_undefined_noop. cbn [get_this].
    destruct v as [| | |s|]; try reflexivity.
    destruct (len s <? 1); reflexivity.
  - unfold setFooter.
    destruct v as [| | |s|]; try reflexivity.
    destruct (len s >? 20); reflexivity.
  - reflexivity.
  - unfold setTitle, bind. rewrite sizeEmbed_undefined_noop. cbn [get_this].
    destruct v as [| | |s|]; reflexivity.
Qed.

Lemma run_keeps_px (calls : list call) (this : MessageEmbed) :
  forallb (fun c => negb (resizes c)) calls = true ->
  px (run verifyString calls this) = px this.
Proof.
  revert this. induction calls as [|c calls IH]; intros this Hcalls.
  - reflexivity.
  - cbn [forallb] in Hcalls. apply andb_prop in Hcalls as [Hc Hcalls].
    apply negb_true_iff in Hc.
    unfold run in *. cbn [fold_left]. rewrite IH by exact Hcalls.
    apply invoke_keeps_px. exact Hc.
Qed.

Lemma setup_px (cloneObject : item -> EmbedField) (data : EmbedData)
    (skipValidation : bool) (this : MessageEmbed) (v : px_value) :
  data_px data = Some v ->
  setup verifyString cloneObject data skipValidation = Return this ->
  px this = v.
Proof.
  intros Hpx. unfold setup. rewrite Hpx.
  match goal with |- match ?m with _ => _ end = _ -> _ => destruct m end;
    intros H; inversion H. reflexivity.
Qed.

End Calls.

(** C8. A setter that throws leaves the embed as it found it: whatever
    call of sizeEmbed, addField, addFields, setDescription, setFooter,
    setTimestamp or setTitle ends in a throw, the state after it (px,
    title, description, timestamp, fields, footer) is the state before. *)
Theorem setters_atomic
    (verifyString : jsval -> (string -> error) -> string -> bool -> completion jsstring)
    (c : call) (this this' : MessageEmbed) (e : error) :
  invoke verifyString c this = (Throw e, this') ->
  this' = this.
Proof. apply invoke_throw_same. Qed.

Lemma setters_atomic_witness :
  snd (invoke verifyString_nonempty
         (CallAddFields [Field (JString (lit "A")) (JString (lit "B"));
                         Field (JString (lit "C")) JUndefined])
         embed5)
  = embed5.
Proof.
  apply (setters_atomic verifyString_nonempty
           (CallAddFields [Field (JString (lit "A")) (JString (lit "B"));
                           Field (JString (lit "C")) JUndefined])
           embed5 _ (RangeError "EMBED_FIELD_VALUE")).
  reflexivity.
Defined.

(** C9, as stated, fails: after setTimestamp with an explicit argument the
    stored timestamp is the empty string, which is falsy, and the snapshot
    carries that empty string, not [null]. *)
Lemma toJSON_falsy_timestamp_kept :
  let this := snd (setTimestamp {| getMonth := 10; getDate := 3; getFullYear := 2026 |}
                     (JNumber (Num 1700000000000)) new_embed) in
  timestamp this = TsString [] /\
  json_timestamp_of (toJSON this) = Stored (TsString []) /\
  ~ timestamp_date_or_null this.
Proof.
  repeat split. intros H. vm_compute in H. discriminate H.
Qed.

(** C9, amended. In the snapshot made by toJSON the timestamp is a Date
    built from the stored value when that value is truthy, and otherwise
    the stored value itself, which is then [null], 0, NaN or the empty
    string; px, title, description, fields and footer are the stored
    ones. *)
Theorem toJSON_snapshot (this : MessageEmbed) :
  (truthy (timestamp this) = true ->
   json_timestamp_of (toJSON this) = DateOf (timestamp this)) /\
  (truthy (timestamp this) = false ->
   json_timestamp_of (toJSON this) = Stored (timestamp this) /\
   (timestamp this = TsNull \/ timestamp this = TsNumber (Num 0) \/
    timestamp this = TsNumber NaN \/ timestamp this = TsString [])) /\
  json_px (toJSON this) = px this /\
  json_title (toJSON this) = title this /\
  json_description (toJSON this) = description this /\
  json_fields (toJSON this) = fields this /\
  json_footer (toJSON this) = footer this.
Proof.
  unfold toJSON. cbn [json_timestamp_of json_px json_title json_description
                      json_fields json_footer].
  repeat split.
  - intros Ht. rewrite Ht. reflexivity.
  - rewrite H. reflexivity.
  - destruct (timestamp this) as [|[z|]|[|c s]]; cbn in H; try discriminate H; auto.
    apply negb_false_iff, Z.eqb_eq in H. subst z. auto.
Qed.

Lemma toJSON_snapshot_witness :
  json_timestamp_of (toJSON (set_timestamp (TsNumber (Num 1700000000000)) new_embed))
  = DateOf (TsNumber (Num 1700000000000)) /\
  json_timestamp_of (toJSON (set_timestamp (TsNumber (Num 0)) new_embed))
  = Stored (TsNumber (Num 0)).
Proof.
  split.
  - apply (proj1 (toJSON_snapshot (set_timestamp (TsNumber (Num 1700000000000)) new_embed))).
    reflexivity.
  - apply (proj1 (proj2 (toJSON_snapshot (set_timestamp (TsNumber (Num 0)) new_embed)))).
    reflexivity.
Defined.

(** C10. A number given as [px] to the constructor has no effect on
    wrapping: on an embed built from such a record, after any calls of the
    mutators among which no sizeEmbed call passes the range check, setTitle
    and setDescription store the text wrapped at width 28, and [px] is
    still the number. *)
Theorem constructor_px_number_ignored
    (verifyString : jsval -> (string -> error) -> string -> bool -> completion jsstring)
    (cloneObject : item -> EmbedField)
    (data : EmbedData) (skipValidation : bool) (n : num)
    (this : MessageEmbed) (calls : list call) (s : jsstring) :
  data_px data = Some (PxNum n) ->
  setup verifyString cloneObject data skipValidation = Return this ->
  forallb (fun c => negb (resizes c)) calls = true ->
  let e := run verifyString calls this in
  px e = PxNum n /\
  effective_max (px e) = 28 /\
  setTitle (JString s) e
  = (Return RetThis, set_title (Some (title_embed 28 s)) e) /\
  (s <> [] ->
   setDescription (JString s) e
   = (Return RetThis, set_description (Some (desc_embed 28 s)) e)).
Proof.
  intros Hpx Hsetup Hcalls e.
  assert (He : px e = PxNum n).
  { unfold e. rewrite run_keeps_px by exact Hcalls.
    eapply setup_px; eassumption. }
  repeat split.
  - exact He.
  - rewrite He. reflexivity.
  - rewrite setTitle_string, He. reflexivity.
  - intros Hs. rewrite setDescription_string, He by exact Hs. reflexivity.
Qed.

Lemma constructor_px_number_ignored_witness :
  let data := {| data_px := Some (PxNum (Num 5)); data_title := None;
                 data_description := None; data_timestamp := None;
                 data_fields := Some [Field (JString (lit "A")) (JString (lit "B"))];
                 data_footer := None |} in
  let this := {| px := PxNum (Num 5); title := None; description := None;
                 timestamp := TsNull;
                 fields := [ {| name := lit "A"; value := lit "B" |} ];
                 footer := None |} in
  let e := run verifyString_nonempty
             [CallSetFooter (JString (lit "bye")); CallSizeEmbed (JNumber (Num 47));
              CallSizeEmbed JUndefined; CallSetTitle (JString (lit "Hi"))]
             this in
  px e = PxNum (Num 5) /\
  effective_max (px e) = 28 /\
  setTitle (JString (lit "HelloWorld")) e
  = (Return RetThis, set_title (Some (title_embed 28 (lit "HelloWorld"))) e) /\
  (lit "HelloWorld" <> [] ->
   setDescription (JString (lit "HelloWorld")) e
   = (Return RetThis, set_description (Some (desc_embed 28 (lit "HelloWorld"))) e)).
Proof.
  intros data this.
  apply (constructor_px_number_ignored verifyString_nonempty cloneObject_field
           data false (Num 5) this).
  - reflexivity.
  - reflexivity.
  - reflexivity.
Defined.

Example title_embed_hello :
  title_embed 5 (lit "HelloWorld") =
  [9474%N; 8199%N] ++ lit " *Hello* " ++ newline
  ++ [9474%N; 8199%N] ++ lit " *World* " ++ newline
  ++ [9474%N; 8199%N] ++ lit " ** ".
Proof. reflexivity. Qed.

Example title_embed_seven :
  title_embed 5 (lit "HelloWo")
  = join newline [[9474%N; 8199%N] ++ lit " *Hello* "; [9474%N; 8199%N] ++ lit " *Wo* "].
Proof. reflexivity. Qed.

Example desc_embed_default_width :
  snd (setDescription (JString (lit "short text")) new_embed)
  = set_description
      (Some (newline ++ [9474%N; 8199%N] ++ lit "short text" ++ newline)) new_embed.
Proof. reflexivity. Qed.

(* ================================================================= *)
(** ** More on wrapping *)

Lemma pieces_long (max : Z) (s : jsstring) :
  max < len s ->
  pieces max s = chunks (Z.to_nat max) (Z.to_nat (len s / max)) s.
Proof.
  intros Hlong. unfold pieces.
  destruct (Z.gtb_spec (len s) max) as [_|H]; [reflexivity | lia].
Qed.

Lemma wrap_lines_pieces (decorate : jsstring -> jsstring) (s : jsstring) (max : Z) :
  1 <= max < len s ->
  wrap_lines decorate s max = map decorate (pieces max s).
Proof.
  intros Hmax. rewrite pieces_long by lia. apply wrap_lines_spec; lia.
Qed.

(** X1. The array of lines built by the wrapping loops, at any width of at
    least 1 and for any text longer than the width: the text cut from left
    to right into len/max pieces of exactly max code units followed by one
    last piece of len mod max code units, each piece decorated; the pieces
    put end to end are the text. *)
Theorem wrap_lines_shape (decorate : jsstring -> jsstring) (s : jsstring) (max : Z) :
  1 <= max < len s ->
  exists (full : list jsstring) (rest : jsstring),
    wrap_lines decorate s max = map decorate (full ++ [rest]) /\
    List.concat (full ++ [rest]) = s /\
    Z.of_nat (List.length full) = len s / max /\
    Forall (fun c => len c = max) full /\
    len rest = len s mod max.
Proof.
  intros Hmax.
  destruct (pieces_shape max s Hmax) as (full & rest & Heq & Hlen & Hfull & Hrest).
  exists full, rest.
  rewrite wrap_lines_pieces, <- Heq by exact Hmax.
  repeat split; try assumption.
  - apply concat_pieces.
  - symmetry. exact Hlen.
Qed.

Lemma wrap_lines_shape_witness :
  exists (full : list jsstring) (rest : jsstring),
    wrap_lines description_line (lit "HelloWorld!") 5
    = map description_line (full ++ [rest]) /\
    List.concat (full ++ [rest]) = lit "HelloWorld!" /\
    Z.of_nat (List.length full) = len (lit "HelloWorld!") / 5 /\
    Forall (fun c => len c = 5) full /\
    len rest = len (lit "HelloWorld!") mod 5.
Proof.
  apply (wrap_lines_shape description_line (lit "HelloWorld!") 5).
  vm_compute. split; [discriminate | reflexivity].
Defined.

Lemma ceil_div_cases (a b : Z) :
  0 <= a -> 1 <= b ->
  (a mod b <> 0 -> ceil_div a b = a / b + 1) /\
  (a mod b = 0 -> ceil_div a b = a / b).
Proof.
  intros Ha Hb. unfold ceil_div.
  pose proof (Z.div_mod a b ltac:(lia)) as Hdm.
  pose proof (Z.mod_pos_bound a b ltac:(lia)) as Hr.
  split; intros Hmod; symmetry.
  - apply Z.div_unique with (r := a mod b - 1); lia.
  - apply Z.div_unique with (r := b - 1); lia.
Qed.

(** X2. The number of lines built for a text longer than the width is
    floor(len/max) + 1: that is ceil(len/max) when the width does not divide
    the length, and one more than ceil(len/max) when it does. *)
Theorem wrap_lines_count (decorate : jsstring -> jsstring) (s : jsstring) (max : Z) :
  1 <= max < len s ->
  Z.of_nat (List.length (wrap_lines decorate s max)) = len s / max + 1 /\
  (len s mod max <> 0 ->
   Z.of_nat (List.length (wrap_lines decorate s max)) = ceil_div (len s) max) /\
  (len s mod max = 0 ->
   Z.of_nat (List.length (wrap_lines decorate s max)) = ceil_div (len s) max + 1).
Proof.
  intros Hmax.
  assert (Hcount : Z.of_nat (List.length (wrap_lines decorate s max)) = len s / max + 1).
  { rewrite wrap_lines_pieces, length_map by exact Hmax.
    apply pieces_length. exact Hmax. }
  destruct (ceil_div_cases (len s) max) as [Hne Heq]; [unfold len; lia | lia |].
  repeat split.
  - exact Hcount.
  - intros Hmod. rewrite Hcount, Hne by exact Hmod. reflexivity.
  - intros Hmod. rewrite Hcount, Heq by exact Hmod. reflexivity.
Qed.

Lemma wrap_lines_count_witness :
  Z.of_nat (List.length (wrap_lines title_line (lit "HelloWorld!") 5)) = 3 /\
  Z.of_nat (List.length (wrap_lines title_line (lit "HelloWorld!") 5))
  = ceil_div (len (lit "HelloWorld!")) 5 /\
  Z.of_nat (List.length (wrap_lines title_line (lit "HelloWorld") 5))
  = ceil_div (len (lit "HelloWorld")) 5 + 1.
Proof.
  split; [| split].
  - apply (proj1 (wrap_lines_count title_line (lit "HelloWorld!") 5
                    ltac:(vm_compute; split; [discriminate | reflexivity]))).
  - apply (proj1 (proj2 (wrap_lines_count title_line (lit "HelloWorld!") 5
                    ltac:(vm_compute; split; [discriminate | reflexivity])))).
    vm_compute. discriminate.
  - apply (proj2 (proj2 (wrap_lines_count title_line (lit "HelloWorld") 5
                    ltac:(vm_compute; split; [discriminate | reflexivity])))).
    reflexivity.
Defined.

Lemma chunks_bounded (w q : nat) (s : jsstring) :
  (List.length s < (q + 1) * w)%nat ->
  Forall (fun c => (List.length c <= w)%nat) (chunks w q s).
Proof.
  intros Hs. unfold chunks. apply Forall_app. split.
  - apply Forall_map, Forall_forall. intros m _.
    rewrite length_firstn. lia.
  - constructor; [| constructor]. rewrite length_skipn. lia.
Qed.

Lemma pieces_bounded (max : Z) (s : jsstring) :
  1 <= max -> Forall (fun c => len c <= max) (pieces max s).
Proof.
  intros Hmax. unfold pieces.
  destruct (Z.gtb_spec (len s) max) as [Hlong|Hshort].
  - assert (Hdiv : 0 <= len s / max) by (apply Z.div_pos; unfold len; lia).
    pose proof (Z.mul_succ_div_gt (len s) max ltac:(lia)) as Hgt.
    eapply Forall_impl;
      [| apply (chunks_bounded (Z.to_nat max) (Z.to_nat (len s / max)) s)].
    + intros c Hc. cbn beta in Hc. unfold len. lia.
    + unfold len in *. nia.
  - constructor; [exact Hshort | constructor].
Qed.

Lemma title_line_length (c : jsstring) : len (title_line c) = len c + 6.
Proof.
  unfold title_line, len. rewrite !length_app. cbn [List.length wall space lit
    list_ascii_of_string map]. lia.
Qed.

Lemma description_line_length (c : jsstring) : len (description_line c) = len c + 2.
Proof.
  unfold description_line, len. rewrite !length_app. cbn [List.length wall space lit
    list_ascii_of_string map]. lia.
Qed.

(** X3. No stored line is wider than the width plus its decoration: at any
    width of at least 1 the title text is lines of at most max + 6 code
    units joined by newlines, and the description text is lines of at most
    max + 2 code units joined by newlines, between two newlines. *)
Theorem stored_lines_width (max : Z) (s : jsstring) :
  1 <= max ->
  exists lines_t lines_d : list jsstring,
    title_embed max s = join newline lines_t /\
    Forall (fun l => len l <= max + 6) lines_t /\
    desc_embed max s = newline ++ join newline lines_d ++ newline /\
    Forall (fun l => len l <= max + 2) lines_d.
Proof.
  intros Hmax.
  exists (map title_line (pieces max s)), (map description_line (pieces max s)).
  pose proof (pieces_bounded max s Hmax) as Hb.
  repeat split.
  - apply title_embed_pieces. exact Hmax.
  - apply Forall_map. eapply Forall_impl; [| exact Hb].
    intros c Hc. cbn beta in *. rewrite title_line_length. lia.
  - apply desc_embed_pieces. exact Hmax.
  - apply Forall_map. eapply Forall_impl; [| exact Hb].
    intros c Hc. cbn beta in *. rewrite description_line_length. lia.
Qed.

Lemma stored_lines_width_witness :
  exists lines_t lines_d : list jsstring,
    title_embed 5 (lit "HelloWorld!") = join newline lines_t /\
    Forall (fun l => len l <= 5 + 6) lines_t /\
    desc_embed 5 (lit "HelloWorld!") = newline ++ join newline lines_d ++ newline /\
    Forall (fun l => len l <= 5 + 2) lines_d.
Proof.
  apply (stored_lines_width 5 (lit "HelloWorld!")). lia.
Defined.

Lemma title_embed_short (max : Z) (s : jsstring) :
  len s <= max ->
  title_embed max s = wall ++ space ++ lit " *" ++ s ++ lit "* ".
Proof.
  intros Hs. unfold title_embed.
  destruct (Z.gtb_spec (len s) max) as [H|_]; [lia |].
  destruct (Z.ltb_spec (len s) (max + 1)) as [_|H]; [| lia].
  unfold title_line. destruct (max - len s =? 0); reflexivity.
Qed.

(** X4. On a string no longer than the effective width setTitle never
    throws and stores one line: the wall U+2502, the figure space U+2007,
    " *", the string as it is, "* ". The empty string is accepted like any
    other and gives a line of decoration only. *)
Theorem setTitle_short (this : MessageEmbed) (s : jsstring) :
  len s <= effective_max (px this) ->
  setTitle (JString s) this
  = (Return RetThis,
     set_title (Some ([9474%N; 8199%N] ++ lit " *" ++ s ++ lit "* ")) this).
Proof.
  intros Hs. rewrite setTitle_string, title_embed_short by exact Hs. reflexivity.
Qed.

Lemma setTitle_short_witness :
  setTitle (JString []) new_embed
  = (Return RetThis, set_title (Some ([9474%N; 8199%N] ++ lit " ** ")) new_embed) /\
  setTitle (JString (lit "Hello")) embed5
  = (Return RetThis, set_title (Some ([9474%N; 8199%N] ++ lit " *Hello* ")) embed5).
Proof.
  split.
  - apply (setTitle_short new_embed []). vm_compute. discriminate.
  - apply (setTitle_short embed5 (lit "Hello")). vm_compute. discriminate.
Defined.

Lemma strip_title_lines (cs : list jsstring) :
  map strip_title_line (map title_line cs) = cs.
Proof.
  rewrite map_map, (map_ext _ (fun c => c)), map_id; [reflexivity |].
  intros c. apply strip_title_line_inv.
Qed.

Lemma strip_description_lines (cs : list jsstring) :
  map strip_description_line (map description_line cs) = cs.
Proof.
  rewrite map_map, (map_ext _ (fun c => c)), map_id; [reflexivity |].
  intros c. apply strip_description_line_inv.
Qed.

Lemma dewrap_title_embed (max : Z) (s : jsstring) :
  1 <= max -> ~ In 10%N s -> dewrap_title (title_embed max s) = s.
Proof.
  intros Hmax Hs. unfold dewrap_title.
  rewrite title_embed_pieces, split_lines_join by
    (exact Hmax
     || (intros H; apply map_eq_nil in H; revert H; apply pieces_nonempty)
     || (apply Forall_map; eapply Forall_impl;
         [intros c; apply title_line_no_newline | apply pieces_no_newline; exact Hs])).
  rewrite strip_title_lines. apply concat_pieces.
Qed.

Lemma dewrap_desc_embed (max : Z) (s : jsstring) :
  1 <= max -> ~ In 10%N s -> dewrap_description (desc_embed max s) = s.
Proof.
  intros Hmax Hs. unfold dewrap_description.
  rewrite desc_embed_pieces, split_lines_join_framed by
    (exact Hmax
     || (intros H; apply map_eq_nil in H; revert H; apply pieces_nonempty)
     || (apply Forall_map; eapply Forall_impl;
         [intros c; apply description_line_no_newline
         | apply pieces_no_newline; exact Hs])).
  cbn [tl]. rewrite removelast_last, strip_description_lines.
  apply concat_pieces.
Qed.

(** X5. The stored text can be read back. For a string without a newline
    and an effective width of at least 1, splitting the title stored by
    setTitle at its newlines, taking wall, space and emphasis markers off
    each line and putting the lines end to end gives the string; the same
    holds for the description stored by setDescription for a non-empty
    string, once its first and last blank lines are dropped. *)
Theorem stored_text_round_trip (this : MessageEmbed) (s : jsstring) :
  1 <= effective_max (px this) ->
  ~ In 10%N s ->
  option_map dewrap_title (title (snd (setTitle (JString s) this))) = Some s /\
  (s <> [] ->
   option_map dewrap_description
     (description (snd (setDescription (JString s) this))) = Some s).
Proof.
  intros Hmax Hs. split.
  - rewrite setTitle_string. cbn [snd title set_title option_map].
    rewrite dewrap_title_embed by assumption. reflexivity.
  - intros Hne. rewrite setDescription_string by exact Hne.
    cbn [snd description set_description option_map].
    rewrite dewrap_desc_embed by assumption. reflexivity.
Qed.

Lemma stored_text_round_trip_witness :
  option_map dewrap_title
    (title (snd (setTitle (JString (lit "HelloWorld")) embed5)))
  = Some (lit "HelloWorld") /\
  (lit "HelloWorld" <> [] ->
   option_map dewrap_description
     (description (snd (setDescription (JString (lit "HelloWorld")) embed5)))
   = Some (lit "HelloWorld")).
Proof.
  apply (stored_text_round_trip embed5 (lit "HelloWorld")).
  - vm_compute. discriminate.
  - vm_compute. intuition discriminate.
Defined.

(** X6. A width set by sizeEmbed is the width of the next setTitle and
    setDescription: after sizeEmbed(n) with n between 3 and 46, the
    effective width is n and both setters wrap at n, the sizeEmbed() call
    they start with changing nothing. *)
Theorem sizeEmbed_then_wrap (this : MessageEmbed) (n : Z) (s : jsstring) :
  3 <= n <= 46 ->
  exists e : MessageEmbed,
    sizeEmbed (JNumber (Num n)) this = (Return RetThis, e) /\
    effective_max (px e) = n /\
    setTitle (JString s) e
    = (Return RetThis,
       set_title (Some (join newline (map title_line (pieces n s)))) e) /\
    (s <> [] ->
     setDescription (JString s) e
     = (Return RetThis,
        set_description
          (Some (newline ++ join newline (map description_line (pieces n s)) ++ newline))
          e)).
Proof.
  intros Hn.
  exists (set_px (PxSize (Some n) (Some (for_loop (Z.abs (n - 4)) dash_body []))) this).
  assert (Hw : effective_max
                 (px (set_px (PxSize (Some n)
                                (Some (for_loop (Z.abs (n - 4)) dash_body []))) this)) = n)
    by reflexivity.
  split; [| split; [exact Hw | split]].
  - unfold sizeEmbed. cbn [typeof not_string bool_strict_eq_string andb].
    destruct (Z.gtb_spec n 2) as [_|H]; [| lia].
    destruct (Z.ltb_spec n 47) as [_|H]; [| lia].
    reflexivity.
  - rewrite setTitle_string, Hw, title_embed_pieces by lia. reflexivity.
  - intros Hs. rewrite setDescription_string, Hw, desc_embed_pieces by (exact Hs || lia).
    reflexivity.
Qed.

Lemma sizeEmbed_then_wrap_witness :
  exists e : MessageEmbed,
    sizeEmbed (JNumber (Num 5)) new_embed = (Return RetThis, e) /\
    effective_max (px e) = 5 /\
    setTitle (JString (lit "HelloWorld!")) e
    = (Return RetThis,
       set_title
         (Some (join newline (map title_line (pieces 5 (lit "HelloWorld!"))))) e) /\
    (lit "HelloWorld!" <> [] ->
     setDescription (JString (lit "HelloWorld!")) e
     = (Return RetThis,
        set_description
          (Some (newline
                 ++ join newline (map description_line (pieces 5 (lit "HelloWorld!")))
                 ++ newline))
          e)).
Proof.
  apply (sizeEmbed_then_wrap new_embed 5 (lit "HelloWorld!")). lia.
Defined.

(* ================================================================= *)
(** ** Arguments of the wrong type *)

(** X7. setTitle, setDescription and setFooter throw a TypeError on any
    argument that is not a string, and leave the embed as it was. *)
Theorem setters_reject_non_strings (this : MessageEmbed) (v : jsval) :
  (forall s, v <> JString s) ->
  setTitle v this = (Throw (TypeError "MessageEmbed title must be a string."), this) /\
  setDescription v this
  = (Throw (TypeError "MessageEmbed description must be a string."), this) /\
  setFooter v this = (Throw (TypeError "MessageEmbed footer must be a string."), this).
Proof.
  intros Hv. destruct v as [| | n | s |];
    try (repeat split; reflexivity).
  exfalso. apply (Hv s). reflexivity.
Qed.

Lemma setters_reject_non_strings_witness :
  setTitle (JNumber (Num 7)) embed5
  = (Throw (TypeError "MessageEmbed title must be a string."), embed5) /\
  setDescription (JNumber (Num 7)) embed5
  = (Throw (TypeError "MessageEmbed description must be a string."), embed5) /\
  setFooter (JNumber (Num 7)) embed5
  = (Throw (TypeError "MessageEmbed footer must be a string."), embed5).
Proof.
  apply (setters_reject_non_strings embed5 (JNumber (Num 7))).
  intros s. discriminate.
Defined.

(** X8. sizeEmbed on an argument that is not a number (a string, null, an
    object, or nothing at all) neither throws nor changes the embed, and
    returns undefined, not the embed, so that the call cannot be chained;
    on NaN it throws a RangeError. *)
Theorem sizeEmbed_non_number (this : MessageEmbed) (v : jsval) :
  (forall n, v <> JNumber n) ->
  sizeEmbed v this = (Return RetUndefined, this) /\
  exists msg, sizeEmbed (JNumber NaN) this = (Throw (RangeError msg), this).
Proof.
  intros Hv. split; [| eexists; reflexivity].
  destruct v as [| | n | s |]; try reflexivity.
  exfalso. apply (Hv n). reflexivity.
Qed.

Lemma sizeEmbed_non_number_witness :
  sizeEmbed (JString (lit "12")) embed5 = (Return RetUndefined, embed5) /\
  exists msg, sizeEmbed (JNumber NaN) embed5 = (Throw (RangeError msg), embed5).
Proof.
  apply (sizeEmbed_non_number embed5 (JString (lit "12"))).
  intros n. discriminate.
Defined.

(* ================================================================= *)
(** ** equals *)

Lemma str_eqb_eq (a b : jsstring) : str_eqb a b = true <-> a = b.
Proof.
  revert b. induction a as [|x a IH]; intros [|y b]; cbn [str_eqb];
    try (split; [discriminate | discriminate]); [tauto |].
  rewrite andb_true_iff, N.eqb_eq, IH.
  split; [intros [-> ->]; reflexivity | intros H; inversion H; tauto].
Qed.

Lemma str_eqb_sym (a b : jsstring) : str_eqb a b = str_eqb b a.
Proof.
  revert b. induction a as [|x a IH]; intros [|y b]; cbn [str_eqb]; try reflexivity.
  rewrite N.eqb_sym, IH. reflexivity.
Qed.

Lemma str_eqb_refl (a : jsstring) : str_eqb a a = true.
Proof. apply str_eqb_eq. reflexivity. Qed.

Lemma nullable_eqb_eq (a b : option jsstring) : nullable_eqb a b = true <-> a = b.
Proof.
  destruct a as [x|], b as [y|]; cbn [nullable_eqb];
    try (split; [discriminate | discriminate]); [| tauto].
  rewrite str_eqb_eq. split; [intros ->; reflexivity | intros H; inversion H; tauto].
Qed.

Lemma nullable_eqb_sym (a b : option jsstring) : nullable_eqb a b = nullable_eqb b a.
Proof. destruct a, b; cbn [nullable_eqb]; try reflexivity. apply str_eqb_sym. Qed.

Lemma num_eqb_sym (a b : num) : num_eqb a b = num_eqb b a.
Proof. destruct a, b; cbn [num_eqb]; try reflexivity. apply Z.eqb_sym. Qed.

Lemma px_strict_eq_sym (same : bool) (a b : px_value) :
  px_strict_eq same a b = px_strict_eq same b a.
Proof. destruct a, b; cbn [px_strict_eq]; try reflexivity. apply num_eqb_sym. Qed.

Lemma ts_strict_eq_sym (a b : ts_value) : ts_strict_eq a b = ts_strict_eq b a.
Proof.
  destruct a, b; cbn [ts_strict_eq]; try reflexivity;
    [apply num_eqb_sym | apply str_eqb_sym].
Qed.

Lemma fieldEquals_eq (f o : EmbedField) : _fieldEquals f o = true <-> f = o.
Proof.
  unfold _fieldEquals. rewrite andb_true_iff, !str_eqb_eq.
  destruct f as [n1 v1], o as [n2 v2]. cbn [name value].
  split; [intros [-> ->]; reflexivity | intros H; inversion H; tauto].
Qed.

Lemma fieldEquals_sym (f o : EmbedField) : _fieldEquals f o = _fieldEquals o f.
Proof. unfold _fieldEquals. rewrite (str_eqb_sym (name f)), (str_eqb_sym (value f)). reflexivity. Qed.

Lemma fields_eqb_eq (l1 l2 : list EmbedField) : fields_eqb l1 l2 = true <-> l1 = l2.
Proof.
  revert l2. induction l1 as [|f l1 IH]; intros [|o l2]; cbn [fields_eqb];
    try (split; [discriminate | discriminate]); [tauto |].
  rewrite andb_true_iff, fieldEquals_eq, IH.
  split; [intros [-> ->]; reflexivity | intros H; inversion H; tauto].
Qed.

Lemma fields_eqb_sym (l1 l2 : list EmbedField) : fields_eqb l1 l2 = fields_eqb l2 l1.
Proof.
  revert l2. induction l1 as [|f l1 IH]; intros [|o l2]; cbn [fields_eqb]; try reflexivity.
  rewrite fieldEquals_sym, IH. reflexivity.
Qed.

(** Under the length test, the indexed traversal finds every element it
    asks for and compares the two lists pairwise. *)
Lemma every_field_spec (pre other l : list EmbedField) :
  List.length l = List.length other ->
  every_field (pre ++ other) (Z.of_nat (List.length pre)) l
  = Return (fields_eqb l other).
Proof.
  revert pre other. induction l as [|f l IH]; intros pre [|o other] Hlen;
    try discriminate Hlen; [reflexivity |].
  cbn [every_field fields_eqb].
  replace (js_get (pre ++ o :: other) (Z.of_nat (List.length pre))) with (Some o).
  - destruct (_fieldEquals f o); [| reflexivity]. cbn [andb].
    replace (pre ++ o :: other) with ((pre ++ [o]) ++ other)
      by (rewrite <- app_assoc; reflexivity).
    replace (Z.of_nat (List.length pre) + 1) with (Z.of_nat (List.length (pre ++ [o])))
      by (rewrite length_app; cbn [List.length]; lia).
    apply IH. cbn [List.length] in Hlen. lia.
  - unfold js_get.
    destruct (Z.ltb_spec (Z.of_nat (List.length pre)) 0) as [H|_]; [lia |].
    rewrite Nat2Z.id, nth_error_app2, Nat.sub_diag by lia. reflexivity.
Qed.

Lemma fields_eqb_length (l1 l2 : list EmbedField) :
  fields_eqb l1 l2 = true -> List.length l1 = List.length l2.
Proof. intros H. apply fields_eqb_eq in H. subst. reflexivity. Qed.

(** The whole chain as one Boolean. *)
Lemma equals_bool (same_px : bool) (this embed : MessageEmbed) :
  equals same_px this embed
  = Return (px_strict_eq same_px (px this) (px embed)
            && nullable_eqb (title this) (title embed)
            && nullable_eqb (description this) (description embed)
            && ts_strict_eq (timestamp this) (timestamp embed)
            && fields_eqb (fields this) (fields embed)
            && nullable_eqb (footer this) (footer embed)).
Proof.
  unfold equals.
  destruct (px_strict_eq same_px (px this) (px embed)); [| reflexivity].
  destruct (nullable_eqb (title this) (title embed)); [| reflexivity].
  destruct (nullable_eqb (description this) (description embed)); [| reflexivity].
  destruct (ts_strict_eq (timestamp this) (timestamp embed)); [| reflexivity].
  cbn [negb andb].
  destruct (Z.eqb_spec (Z.of_nat (List.length (fields this)))
                       (Z.of_nat (List.length (fields embed)))) as [Hlen|Hlen];
    cbn [negb].
  - pose proof (every_field_spec [] (fields embed) (fields this) ltac:(lia)) as He.
    cbn [app List.length Z.of_nat] in He. rewrite He.
    destruct (fields_eqb (fields this) (fields embed)); reflexivity.
  - destruct (fields_eqb (fields this) (fields embed)) eqn:E; [| reflexivity].
    apply fields_eqb_length in E. lia.
Qed.

(** X9. equals never throws, whatever the two field lists (the length test
    comes before the indexed reads), and answers true exactly when the
    titles, descriptions, footers and field lists are the same, the
    timestamps are strictly equal and the px entries are strictly equal. *)
Theorem equals_decides (same_px : bool) (this embed : MessageEmbed) :
  (exists b, equals same_px this embed = Return b) /\
  (equals same_px this embed = Return true <->
   px_strict_eq same_px (px this) (px embed) = true /\
   title this = title embed /\
   description this = description embed /\
   ts_strict_eq (timestamp this) (timestamp embed) = true /\
   fields this = fields embed /\
   footer this = footer embed).
Proof.
  rewrite equals_bool. split; [eexists; reflexivity |].
  rewrite <- !nullable_eqb_eq, <- fields_eqb_eq.
  split.
  - intros H. inversion H as [Hb]. rewrite Hb.
    repeat (apply andb_prop in Hb as [Hb ?]). tauto.
  - intros (-> & -> & -> & -> & -> & ->). reflexivity.
Qed.

(** X10. equals is symmetric: comparing the second embed with the first
    gives the same answer. *)
Theorem equals_symmetric (same_px : bool) (this embed : MessageEmbed) :
  equals same_px this embed = equals same_px embed this.
Proof.
  rewrite !equals_bool.
  rewrite (px_strict_eq_sym same_px (px this)), (nullable_eqb_sym (title this)),
    (nullable_eqb_sym (description this)), (ts_strict_eq_sym (timestamp this)),
    (fields_eqb_sym (fields this)), (nullable_eqb_sym (footer this)).
  reflexivity.
Qed.

Lemma num_eqb_refl (n : num) : num_eqb n n = match n with Num _ => true | NaN => false end.
Proof. destruct n; cbn [num_eqb]; [apply Z.eqb_refl | reflexivity]. Qed.

(** X11. An embed equals itself unless its px or its timestamp is NaN: the
    constructor stores NaN as timestamp for an invalid date, and such an
    embed is not equal to itself. *)
Theorem equals_reflexive_but_nan (this : MessageEmbed) :
  equals true this this
  = Return (negb (px_is_nan (px this)) && negb (ts_is_nan (timestamp this))).
Proof.
  rewrite equals_bool.
  replace (nullable_eqb (title this) (title this)) with true
    by (symmetry; apply nullable_eqb_eq; reflexivity).
  replace (nullable_eqb (description this) (description this)) with true
    by (symmetry; apply nullable_eqb_eq; reflexivity).
  replace (nullable_eqb (footer this) (footer this)) with true
    by (symmetry; apply nullable_eqb_eq; reflexivity).
  replace (fields_eqb (fields this) (fields this)) with true
    by (symmetry; apply fields_eqb_eq; reflexivity).
  rewrite !andb_true_r. f_equal. f_equal.
  - destruct (px this) as [|[z|]|c l]; cbn [px_strict_eq px_is_nan negb num_eqb];
      try reflexivity. apply Z.eqb_refl.
  - destruct (timestamp this) as [|[z|]|t];
      cbn [ts_strict_eq ts_is_nan negb num_eqb]; try reflexivity.
    + apply Z.eqb_refl.
    + apply str_eqb_refl.
Qed.

(* ================================================================= *)
(** ** Timestamp *)

(** X12. setTimestamp never throws and never reads its argument beyond
    testing it for undefined: with any defined argument it stores the empty
    string, which toJSON then reports as it is; with no argument it stores
    "  *•*  " followed by month/day/year, the month as getMonth gives it
    (counted from 0) and the day one more than getDate gives, and toJSON
    reports a Date built from that text. *)
Theorem setTimestamp_snapshot (today : clock) (v : jsval) (this : MessageEmbed) :
  (is_undefined v = false ->
   setTimestamp today v this = (Return RetThis, set_timestamp (TsString []) this) /\
   json_timestamp_of (toJSON (snd (setTimestamp today v this))) = Stored (TsString [])) /\
  (let text := lit "  *" ++ [8226%N] ++ lit "*  "
               ++ string_of_Z (getMonth today) ++ lit "/"
               ++ string_of_Z (getDate today + 1) ++ lit "/"
               ++ string_of_Z (getFullYear today) in
   setTimestamp today JUndefined this
   = (Return RetThis, set_timestamp (TsString text) this) /\
   json_timestamp_of (toJSON (snd (setTimestamp today JUndefined this)))
   = DateOf (TsString text)).
Proof.
  split.
  - intros Hv. unfold setTimestamp. rewrite Hv. split; reflexivity.
  - split; reflexivity.
Qed.

Lemma setTimestamp_snapshot_witness :
  setTimestamp {| getMonth := 0; getDate := 31; getFullYear := 2026 |}
    (JString (lit "2026-01-31")) new_embed
  = (Return RetThis, set_timestamp (TsString []) new_embed) /\
  setTimestamp {| getMonth := 0; getDate := 31; getFullYear := 2026 |}
    JUndefined new_embed
  = (Return RetThis,
     set_timestamp (TsString (lit "  *" ++ [8226%N] ++ lit "*  0/32/2026")) new_embed).
Proof.
  split.
  - apply (proj1 (setTimestamp_snapshot
                    {| getMonth := 0; getDate := 31; getFullYear := 2026 |}
                    (JString (lit "2026-01-31")) new_embed)).
    reflexivity.
  - apply (proj2 (setTimestamp_snapshot
                    {| getMonth := 0; getDate := 31; getFullYear := 2026 |}
                    JUndefined new_embed)).
Defined.

(* ================================================================= *)
(** ** Fields *)

Lemma flat_app (depth : nat) (l1 l2 : list item) :
  flat depth (l1 ++ l2) = flat depth l1 ++ flat depth l2.
Proof.
  induction l1 as [|x l1 IH]; [destruct depth; reflexivity |].
  destruct depth as [|d]; destruct x as [n v|sub|]; cbn [app];
    cbn [flat] in *; rewrite IH; try reflexivity.
  rewrite app_assoc. reflexivity.
Qed.

Lemma flat_zero (l : list item) : flat 0 l = l.
Proof.
  induction l as [|x l IH]; [reflexivity |].
  destruct x; cbn [flat] in *; rewrite IH; reflexivity.
Qed.

Lemma flat_plain (depth : nat) (l : list item) :
  forallb is_plain l = true -> flat depth l = l.
Proof.
  induction l as [|x l IH]; intros Hl; [destruct depth; reflexivity |].
  cbn [forallb] in Hl. apply andb_prop in Hl as [Hx Hl].
  destruct x as [n v|sub|]; try discriminate Hx.
  specialize (IH Hl). destruct depth; cbn [flat] in *; rewrite IH; reflexivity.
Qed.

Lemma flat_wrapped (depth : nat) (l : list item) :
  flat (S depth) [Items l] = flat depth l.
Proof. cbn [flat]. apply app_nil_r. Qed.

Lemma map_throwing_app {A B : Type} (f : A -> completion B) (l1 l2 : list A) :
  map_throwing f (l1 ++ l2)
  = match map_throwing f l1 with
    | Throw e => Throw e
    | Return a =>
        match map_throwing f l2 with
        | Throw e => Throw e
        | Return b => Return (a ++ b)
        end
    end.
Proof.
  induction l1 as [|x l1 IH]; cbn [app map_throwing].
  - destruct (map_throwing f l2); reflexivity.
  - destruct (f x); [| reflexivity]. rewrite IH.
    destruct (map_throwing f l1); [| reflexivity].
    destruct (map_throwing f l2); reflexivity.
Qed.

Lemma map_throwing_length {A B : Type} (f : A -> completion B) (l : list A) (r : list B) :
  map_throwing f l = Return r -> List.length r = List.length l.
Proof.
  revert r. induction l as [|x l IH]; intros r; cbn [map_throwing].
  - intros H. inversion H. reflexivity.
  - destruct (f x); [| discriminate].
    destruct (map_throwing f l) as [ys|]; [| discriminate].
    intros H. inversion H. cbn [List.length]. rewrite (IH ys); reflexivity.
Qed.

Section Fields.

Variable verifyString : jsval -> (string -> error) -> string -> bool -> completion jsstring.

Lemma addFields_return (l : list item) (this e : MessageEmbed) (r : retval) :
  addFields verifyString l this = (Return r, e) ->
  exists added,
    normalizeFields verifyString [Items l] = Return added /\
    r = RetThis /\ e = set_fields (fields this ++ added) this.
Proof.
  unfold addFields.
  destruct (normalizeFields verifyString [Items l]) as [added|err]; intros H;
    inversion H.
  exists added. repeat split.
Qed.

Lemma normalizeFields_wrapped_app (l1 l2 : list item) :
  normalizeFields verifyString [Items (l1 ++ l2)]
  = match normalizeFields verifyString [Items l1] with
    | Throw e => Throw e
    | Return a =>
        match normalizeFields verifyString [Items l2] with
        | Throw e => Throw e
        | Return b => Return (a ++ b)
        end
    end.
Proof.
  unfold normalizeFields. rewrite !flat_wrapped, flat_app. apply map_throwing_app.
Qed.

Lemma invoke_fields_grow (c : call) (this : MessageEmbed) :
  exists added, fields (snd (invoke verifyString c this)) = fields this ++ added.
Proof.
  assert (Hsame : forall e, fields e = fields this ->
                            exists added, fields e = fields this ++ added).
  { intros e He. exists []. rewrite app_nil_r. exact He. }
  assert (Hadd : forall l, exists added,
             fields (snd (addFields verifyString l this)) = fields this ++ added).
  { intros l. unfold addFields.
    destruct (normalizeFields verifyString [Items l]) as [added|err].
    - exists added. reflexivity.
    - apply Hsame. reflexivity. }
  destruct c as [v|n v|l|v|v|today v|v]; cbn [invoke].
  - apply Hsame. unfold sizeEmbed. cbn [bool_strict_eq_string andb].
    destruct v as [| |[n|]| |]; try reflexivity.
    destruct ((n >? 2) && (n <? 47)); reflexivity.
  - apply Hadd.
  - apply Hadd.
  - apply Hsame. unfold setDescription, bind. rewrite sizeEmbed_undefined_noop.
    cbn [get_this]. destruct v as [| | |s|]; try reflexivity.
    destruct (len s <? 1); reflexivity.
  - apply Hsame. unfold setFooter. destruct v as [| | |s|]; try reflexivity.
    destruct (len s >? 20); reflexivity.
  - apply Hsame. reflexivity.
  - apply Hsame. unfold setTitle, bind. rewrite sizeEmbed_undefined_noop.
    cbn [get_this]. destruct v as [| | |s|]; reflexivity.
Qed.

End Fields.

(** X13. Adding fields in two calls or in one is the same: when
    addFields(...l1) and then addFields(...l2) both return, addFields with
    the arguments of both, in that order, returns the same embed; and what
    was added is one validated field per argument after flattening, put
    after the fields that were there. *)
Theorem addFields_split
    (verifyString : jsval -> (string -> error) -> string -> bool -> completion jsstring)
    (l1 l2 : list item) (this e1 e2 : MessageEmbed) (r1 r2 : retval) :
  addFields verifyString l1 this = (Return r1, e1) ->
  addFields verifyString l2 e1 = (Return r2, e2) ->
  addFields verifyString (l1 ++ l2) this = (Return RetThis, e2) /\
  exists added,
    fields e2 = fields this ++ added /\
    List.length added = List.length (flat 1 (l1 ++ l2)).
Proof.
  intros H1 H2.
  apply addFields_return in H1 as (a1 & Hn1 & _ & ->).
  apply addFields_return in H2 as (a2 & Hn2 & _ & ->).
  pose proof (normalizeFields_wrapped_app verifyString l1 l2) as Happ.
  rewrite Hn1, Hn2 in Happ.
  split.
  - unfold addFields. rewrite Happ. cbn [fields set_fields].
    unfold bind, assign, ret, set_fields. cbn [fields px title description
      timestamp footer]. rewrite app_assoc. reflexivity.
  - exists (a1 ++ a2). cbn [fields set_fields]. split; [symmetry; apply app_assoc |].
    unfold normalizeFields in Happ. rewrite flat_wrapped in Happ.
    apply map_throwing_length in Happ. exact Happ.
Qed.

Lemma addFields_split_witness :
  addFields verifyString_nonempty
    ([Field (JString (lit "A")) (JString (lit "B"))]
     ++ [Items [Field (JString (lit "C")) (JString (lit "D"))]])
    new_embed
  = (Return RetThis,
     set_fields [ {| name := lit "A"; value := lit "B" |};
                  {| name := lit "C"; value := lit "D" |} ] new_embed) /\
  exists added,
    fields (set_fields [ {| name := lit "A"; value := lit "B" |};
                         {| name := lit "C"; value := lit "D" |} ] new_embed)
    = fields new_embed ++ added /\
    List.length added
    = List.length (flat 1 ([Field (JString (lit "A")) (JString (lit "B"))]
                           ++ [Items [Field (JString (lit "C")) (JString (lit "D"))]])).
Proof.
  apply (addFields_split verifyString_nonempty
           [Field (JString (lit "A")) (JString (lit "B"))]
           [Items [Field (JString (lit "C")) (JString (lit "D"))]]
           new_embed
           (set_fields [ {| name := lit "A"; value := lit "B" |} ] new_embed)
           _ RetThis RetThis); reflexivity.
Defined.

(** X14. An array of field objects and the same field objects given as
    separate arguments are treated alike: addFields([f1, ..., fn]) does what
    addFields(f1, ..., fn) does. *)
Theorem addFields_array_or_arguments
    (verifyString : jsval -> (string -> error) -> string -> bool -> completion jsstring)
    (l : list item) (this : MessageEmbed) :
  forallb is_plain l = true ->
  addFields verifyString [Items l] this = addFields verifyString l this.
Proof.
  intros Hl. unfold addFields, normalizeFields.
  rewrite !flat_wrapped, flat_zero, (flat_plain 1 l) by exact Hl.
  reflexivity.
Qed.

Lemma addFields_array_or_arguments_witness :
  addFields verifyString_nonempty
    [Items [Field (JString (lit "A")) (JString (lit "B"));
            Field (JString (lit "C")) (JString (lit "D"))]] embed5
  = addFields verifyString_nonempty
      [Field (JString (lit "A")) (JString (lit "B"));
       Field (JString (lit "C")) (JString (lit "D"))] embed5.
Proof.
  apply (addFields_array_or_arguments verifyString_nonempty
           [Field (JString (lit "A")) (JString (lit "B"));
            Field (JString (lit "C")) (JString (lit "D"))] embed5).
  reflexivity.
Defined.

(** X15. No mutator ever removes, replaces or reorders a field: after any
    sequence of calls, failed ones included, the fields the embed started
    with are still there, in order, at the front of its field list. *)
Theorem fields_only_grow
    (verifyString : jsval -> (string -> error) -> string -> bool -> completion jsstring)
    (calls : list call) (this : MessageEmbed) :
  exists added, fields (run verifyString calls this) = fields this ++ added.
Proof.
  revert this. induction calls as [|c calls IH]; intros this.
  - exists []. cbn. rewrite app_nil_r. reflexivity.
  - unfold run in *. cbn [fold_left].
    destruct (IH (snd (invoke verifyString c this))) as (a2 & H2).
    destruct (invoke_fields_grow verifyString c this) as (a1 & H1).
    exists (a1 ++ a2). rewrite H2, H1, app_assoc. reflexivity.
Qed.

(** X16. Each mutator writes its own property only: sizeEmbed writes px,
    setTitle title, setDescription description, setFooter footer,
    setTimestamp timestamp, addField and addFields fields; every other
    property is after the call, returned or thrown, what it was before. *)
Theorem invoke_frame
    (verifyString : jsval -> (string -> error) -> string -> bool -> completion jsstring)
    (c : call) (this : MessageEmbed) :
  let e := snd (invoke verifyString c this) in
  match c with CallSizeEmbed _ => True | _ => px e = px this end /\
  match c with CallSetTitle _ => True | _ => title e = title this end /\
  match c with CallSetDescription _ => True | _ => description e = description this end /\
  match c with CallSetTimestamp _ _ => True | _ => timestamp e = timestamp this end /\
  match c with
  | CallAddField _ _ | CallAddFields _ => True
  | _ => fields e = fields this
  end /\
  match c with CallSetFooter _ => True | _ => footer e = footer this end.
Proof.
  destruct c as [v|n v|l|v|v|today v|v]; cbn [invoke].
  - unfold sizeEmbed. cbn [bool_strict_eq_string andb].
    destruct v as [| |[n|]| |]; try (repeat split; reflexivity).
    destruct ((n >? 2) && (n <? 47)); repeat split; reflexivity.
  - unfold addField, addFields.
    destruct (normalizeFields verifyString _); repeat split; reflexivity.
  - unfold addFields.
    destruct (normalizeFields verifyString _); repeat split; reflexivity.
  - unfold setDescription, bind. rewrite sizeEmbed_undefined_noop. cbn [get_this].
    destruct v as [| | |s|]; try (repeat split; reflexivity).
    destruct (len s <? 1); repeat split; reflexivity.
  - unfold setFooter.
    destruct v as [| | |s|]; try (repeat split; reflexivity).
    destruct (len s >? 20); repeat split; reflexivity.
  - repeat split; reflexivity.
  - unfold setTitle, bind. rewrite sizeEmbed_undefined_noop. cbn [get_this].
    destruct v as [| | |s|]; repeat split; reflexivity.
Qed.

(* ================================================================= *)
(** ** Construction *)

(** X17. Fields given to the constructor go through the validation of
    addFields: building an embed from a record with a [fields] array (and
    validation on) gives what building it from the same record without
    [fields] and then calling addFields with the elements of the array
    gives, and throws what that call throws. *)
Theorem constructor_fields_as_addFields
    (verifyString : jsval -> (string -> error) -> string -> bool -> completion jsstring)
    (cloneObject : item -> EmbedField)
    (data : EmbedData) (fs : list item) (e0 : MessageEmbed) :
  data_fields data = Some fs ->
  setup verifyString cloneObject (without_fields data) false = Return e0 ->
  setup verifyString cloneObject data false
  = match addFields verifyString fs e0 with
    | (Return _, e) => Return e
    | (Throw err, _) => Throw err
    end.
Proof.
  intros Hfs H0. unfold setup in *. cbn [without_fields data_fields data_px data_title
    data_description data_timestamp data_footer] in H0.
  inversion H0 as [He0]. clear H0.
  rewrite Hfs. unfold addFields.
  destruct (normalizeFields verifyString [Items fs]); reflexivity.
Qed.

Lemma constructor_fields_as_addFields_witness :
  let data := {| data_px := None; data_title := Some (lit "T");
                 data_description := None; data_timestamp := None;
                 data_fields := Some [Field (JString (lit "A")) (JString (lit "B"))];
                 data_footer := None |} in
  setup verifyString_nonempty cloneObject_field data false
  = match addFields verifyString_nonempty
            [Field (JString (lit "A")) (JString (lit "B"))]
            (set_title (Some (lit "T")) new_embed) with
    | (Return _, e) => Return e
    | (Throw err, _) => Throw err
    end.
Proof.
  intros data.
  apply (constructor_fields_as_addFields verifyString_nonempty cloneObject_field data
           [Field (JString (lit "A")) (JString (lit "B"))]
           (set_title (Some (lit "T")) new_embed)); reflexivity.
Defined.

(** X18. The constructor stores title, description and footer as they are
    given, without wrapping or checking them, so that the snapshot of a
    freshly built embed gives them back; a missing px comes back as null,
    and a time value comes back as a Date unless it is 0 or NaN, which
    come back as they are. *)
Theorem constructor_snapshot
    (verifyString : jsval -> (string -> error) -> string -> bool -> completion jsstring)
    (cloneObject : item -> EmbedField)
    (data : EmbedData) (skipValidation : bool) (e : MessageEmbed) :
  setup verifyString cloneObject data skipValidation = Return e ->
  json_title (toJSON e) = data_title data /\
  json_description (toJSON e) = data_description data /\
  json_footer (toJSON e) = data_footer data /\
  json_px (toJSON e) = match data_px data with Some v => v | None => PxNull end /\
  json_timestamp_of (toJSON e)
  = match data_timestamp data with
    | None => Stored TsNull
    | Some NaN => Stored (TsNumber NaN)
    | Some (Num t) => if t =? 0 then Stored (TsNumber (Num 0)) else DateOf (TsNumber (Num t))
    end.
Proof.
  unfold setup.
  match goal with |- match ?m with _ => _ end = _ -> _ => destruct m end;
    intros H; inversion H. clear H.
  unfold toJSON. cbn [json_title json_description json_footer json_px
    json_timestamp_of title description footer px timestamp].
  repeat split.
  destruct (data_timestamp data) as [[t|]|]; try reflexivity.
  cbn [truthy]. destruct (Z.eqb_spec t 0) as [->|_]; reflexivity.
Qed.

Lemma constructor_snapshot_witness :
  let data := {| data_px := None;
                 data_title := Some (lit "a title far longer than the default width");
                 data_description := Some [];
                 data_timestamp := Some (Num 0);
                 data_fields := None;
                 data_footer := Some (lit "a footer of more than twenty code units") |} in
  let e := {| px := PxNull;
              title := data_title data; description := data_description data;
              timestamp := TsNumber (Num 0); fields := [];
              footer := data_footer data |} in
  json_title (toJSON e) = data_title data /\
  json_description (toJSON e) = data_description data /\
  json_footer (toJSON e) = data_footer data /\
  json_px (toJSON e) = match data_px data with Some v => v | None => PxNull end /\
  json_timestamp_of (toJSON e)
  = match data_timestamp data with
    | None => Stored TsNull
    | Some NaN => Stored (TsNumber NaN)
    | Some (Num t) => if t =? 0 then Stored (TsNumber (Num 0)) else DateOf (TsNumber (Num t))
    end.
Proof.
  intros data e.
  apply (constructor_snapshot verifyString_nonempty cloneObject_field data false e).
  reflexivity.
Defined.

(* ================================================================= *)
(** ** Widths below 1 *)

Lemma slice_nothing (s : jsstring) : slice s None (Some NaN) = [].
Proof.
  unfold slice. cbn [to_integer Z.ltb Z.compare].
  rewrite Z.min_l by (unfold len; lia). reflexivity.
Qed.

Lemma slice_empty_start (s : jsstring) : slice s (Some (Num 0)) (Some (Num 0)) = [].
Proof. rewrite slice_inside by (unfold len; lia). reflexivity. Qed.

Lemma slice_whole (s : jsstring) : slice s (Some (Num 0)) (Some (Num (len s))) = s.
Proof. rewrite slice_to_end by (unfold len; lia). reflexivity. Qed.

Lemma partition_negative (max lenstr : Z) :
  max < 0 -> 0 <= lenstr ->
  partition max lenstr
  = {| parts := max; parts_count := 0; parts_count_loop := 1;
       help_loop := true; final_count := NaN; arr_parts := [NaN] |}.
Proof.
  intros Hmax Hlen. unfold partition, for_loop.
  set (st0 := {| parts := max; parts_count := 0; parts_count_loop := 0;
                 help_loop := false; final_count := Num 0; arr_parts := [] |}).
  set (stB := {| parts := max; parts_count := 0; parts_count_loop := 0;
                 help_loop := true; final_count := NaN; arr_parts := [NaN] |}).
  pose proof (for_from_invariant (partition_body max lenstr)
                (fun j st => (j <= lenstr -> st = st0) /\ (j = lenstr + 1 -> st = stB))
                (Z.to_nat (lenstr + 1)) 0 st0) as Hinv.
  cbn beta in Hinv. destruct Hinv as [_ Hend].
  - split; [reflexivity | lia].
  - intros j st Hj [Hst _]. rewrite Hst by lia.
    unfold partition_body, st0. cbn [parts arr_parts List.length Z.of_nat].
    destruct (Z.eqb_spec j max) as [E|_]; [lia |].
    destruct (Z.eqb_spec j lenstr) as [E|NE].
    + eexists. split; [reflexivity |]. split; [lia |]. intros _. reflexivity.
    + eexists. split; [reflexivity |]. split; [reflexivity | lia].
  - cbn zeta. rewrite Hend by lia. reflexivity.
Qed.

Lemma partition_zero (lenstr : Z) :
  1 <= lenstr ->
  partition 0 lenstr
  = {| parts := 0; parts_count := 1; parts_count_loop := 2;
       help_loop := true; final_count := Num lenstr;
       arr_parts := [Num 0; Num lenstr] |}.
Proof.
  intros Hlen. unfold partition, for_loop.
  set (st0 := {| parts := 0; parts_count := 0; parts_count_loop := 0;
                 help_loop := false; final_count := Num 0; arr_parts := [] |}).
  set (stA := {| parts := 0; parts_count := 1; parts_count_loop := 1;
                 help_loop := false; final_count := Num 0; arr_parts := [Num 0] |}).
  set (stB := {| parts := 0; parts_count := 1; parts_count_loop := 1;
                 help_loop := true; final_count := Num lenstr;
                 arr_parts := [Num 0; Num lenstr] |}).
  pose proof (for_from_invariant (partition_body 0 lenstr)
                (fun j st => (j = 0 -> st = st0) /\ (1 <= j <= lenstr -> st = stA)
                             /\ (j = lenstr + 1 -> st = stB))
                (Z.to_nat (lenstr + 1)) 0 st0) as Hinv.
  cbn beta in Hinv. destruct Hinv as (_ & _ & Hend).
  - split; [reflexivity | split; lia].
  - intros j st Hj (H0 & HA & _).
    destruct (Z.eq_dec j 0) as [->|Hj0].
    + rewrite H0 by reflexivity.
      unfold partition_body, st0. cbn [parts].
      destruct (Z.eqb_spec 0 lenstr) as [E|_]; [lia |].
      eexists. split; [reflexivity |].
      split; [lia | split; [intros _; reflexivity | lia]].
    + rewrite HA by lia.
      unfold partition_body, stA. cbn [parts arr_parts List.length Z.of_nat].
      destruct (Z.eqb_spec j 0) as [E|_]; [lia |].
      destruct (Z.eqb_spec j lenstr) as [E|NE].
      * eexists. split; [reflexivity |].
        split; [lia | split; [lia |]].
        intros _. subst j. unfold stB. cbn.
        replace (lenstr - 0 + 0) with lenstr by lia. reflexivity.
      * eexists. split; [reflexivity |].
        split; [lia | split; [intros _; reflexivity | lia]].
  - cbn zeta. rewrite Hend by lia. reflexivity.
Qed.

Lemma wrap_lines_negative (decorate : jsstring -> jsstring) (s : jsstring) (max : Z) :
  max < 0 -> wrap_lines decorate s max = [decorate []].
Proof.
  intros Hmax. unfold wrap_lines.
  rewrite partition_negative by (unfold len; lia).
  unfold for_loop. cbn [parts_count_loop arr_parts].
  change (Z.to_nat 1) with 1%nat. cbn -[slice len].
  rewrite slice_nothing. reflexivity.
Qed.

Lemma wrap_lines_zero (decorate : jsstring -> jsstring) (s : jsstring) :
  s <> [] -> wrap_lines decorate s 0 = [decorate []; decorate s].
Proof.
  intros Hs. unfold wrap_lines.
  rewrite partition_zero by (destruct s; [contradiction | unfold len; cbn; lia]).
  unfold for_loop. cbn [parts_count_loop arr_parts].
  change (Z.to_nat 2) with 2%nat. cbn -[slice len].
  rewrite slice_empty_start, slice_whole. reflexivity.
Qed.

(** X19. A width below 1 can only come from a size record handed to the
    constructor, and wrapping then loses or misplaces text: below 0,
    setTitle stores a line of decoration only (wall U+2502, figure space
    U+2007, " ** "), whatever the string, and setDescription stores a wall
    and a figure space between two newlines, whatever the non-empty string;
    at 0, for a non-empty string, setTitle stores a line of decoration only
    followed by one line holding the whole string. *)
Theorem setTitle_width_below_one (this : MessageEmbed) (s : jsstring) :
  (effective_max (px this) < 0 ->
   setTitle (JString s) this
   = (Return RetThis, set_title (Some ([9474%N; 8199%N] ++ lit " ** ")) this) /\
   (s <> [] ->
    setDescription (JString s) this
    = (Return RetThis,
       set_description (Some [10%N; 9474%N; 8199%N; 10%N]) this))) /\
  (effective_max (px this) = 0 -> s <> [] ->
   setTitle (JString s) this
   = (Return RetThis,
      set_title
        (Some ([9474%N; 8199%N] ++ lit " ** " ++ [10%N]
               ++ [9474%N; 8199%N] ++ lit " *" ++ s ++ lit "* "))
        this)).
Proof.
  split.
  - intros Hmax. split.
    + rewrite setTitle_string. unfold title_embed.
      destruct (Z.gtb_spec (len s) (effective_max (px this))) as [_|H];
        [| unfold len in H; lia].
      rewrite wrap_lines_negative by exact Hmax. reflexivity.
    + intros Hs. rewrite setDescription_string by exact Hs. unfold desc_embed.
      destruct (Z.gtb_spec (len s) (effective_max (px this))) as [_|H];
        [| unfold len in H; lia].
      rewrite wrap_lines_negative by exact Hmax. reflexivity.
  - intros Hmax Hs. rewrite setTitle_string, Hmax. unfold title_embed.
    destruct (Z.gtb_spec (len s) 0) as [_|H].
    + rewrite wrap_lines_zero by exact Hs. reflexivity.
    + destruct s; [contradiction | unfold len in H; cbn in H; lia].
Qed.

Lemma setTitle_width_below_one_witness :
  setTitle (JString (lit "Hello"))
    (set_px (PxSize (Some (-1)) None) new_embed)
  = (Return RetThis,
     set_title (Some ([9474%N; 8199%N] ++ lit " ** "))
       (set_px (PxSize (Some (-1)) None) new_embed)) /\
  setTitle (JString (lit "Hello"))
    (set_px (PxSize (Some 0) None) new_embed)
  = (Return RetThis,
     set_title (Some ([9474%N; 8199%N] ++ lit " ** " ++ [10%N]
                      ++ [9474%N; 8199%N] ++ lit " *Hello* "))
       (set_px (PxSize (Some 0) None) new_embed)).
Proof.
  split.
  - apply (proj1 (proj1 (setTitle_width_below_one
                    (set_px (PxSize (Some (-1)) None) new_embed) (lit "Hello"))
                    ltac:(reflexivity))).
  - apply (proj2 (setTitle_width_below_one
                    (set_px (PxSize (Some 0) None) new_embed) (lit "Hello"))).
    + reflexivity.
    + discriminate.
Defined.

(* ================================================================= *)
(** ** More on fields and on the width *)

(** X20. addField checks the name, then the value, and appends exactly one
    field, made of what the two checks return, after the fields that are
    there; a failing check of the name is reported without the value being
    looked at, and nothing is appended when a check fails. *)
Theorem addField_appends_one
    (verifyString : jsval -> (string -> error) -> string -> bool -> completion jsstring)
    (n v : jsval) (this : MessageEmbed) :
  addField verifyString n v this
  = match verifyString n RangeError "EMBED_FIELD_NAME"%string false with
    | Throw e => (Throw e, this)
    | Return n' =>
        match verifyString v RangeError "EMBED_FIELD_VALUE"%string false with
        | Throw e => (Throw e, this)
        | Return v' =>
            (Return RetThis,
             set_fields (fields this ++ [ {| name := n'; value := v' |} ]) this)
        end
    end.
Proof.
  unfold addField, addFields, normalizeFields.
  cbn [flat app map_throwing normalize_item]. unfold normalizeField.
  destruct (verifyString n RangeError "EMBED_FIELD_NAME"%string false); [| reflexivity].
  destruct (verifyString v RangeError "EMBED_FIELD_VALUE"%string false); reflexivity.
Qed.

(** X21. The first invalid field decides: when addFields returns on the
    arguments l1 and throws on the arguments l2, it throws the same error
    on l1 followed by l2, and the fields of l1 are not added either. *)
Theorem addFields_first_error
    (verifyString : jsval -> (string -> error) -> string -> bool -> completion jsstring)
    (l1 l2 : list item) (this e1 e2 : MessageEmbed) (r : retval) (err : error) :
  addFields verifyString l1 this = (Return r, e1) ->
  addFields verifyString l2 this = (Throw err, e2) ->
  addFields verifyString (l1 ++ l2) this = (Throw err, this).
Proof.
  intros H1 H2.
  apply addFields_return in H1 as (a1 & Hn1 & _ & _).
  pose proof (normalizeFields_wrapped_app verifyString l1 l2) as Happ.
  rewrite Hn1 in Happ. unfold addFields in *.
  destruct (normalizeFields verifyString [Items l2]) as [a2|err2].
  - inversion H2.
  - inversion H2; subst. rewrite Happ. reflexivity.
Qed.

Lemma addFields_first_error_witness :
  addFields verifyString_nonempty
    ([Field (JString (lit "A")) (JString (lit "B"))]
     ++ [Field (JString []) (JString (lit "D"));
         Field (JString (lit "E")) JNull])
    embed5
  = (Throw (RangeError "EMBED_FIELD_NAME"), embed5).
Proof.
  apply (addFields_first_error verifyString_nonempty
           [Field (JString (lit "A")) (JString (lit "B"))]
           [Field (JString []) (JString (lit "D")); Field (JString (lit "E")) JNull]
           embed5
           (set_fields [ {| name := lit "A"; value := lit "B" |} ] embed5)
           embed5 RetThis (RangeError "EMBED_FIELD_NAME")); reflexivity.
Defined.

Lemma invoke_keeps_width
    (verifyString : jsval -> (string -> error) -> string -> bool -> completion jsstring)
    (c : call) (this : MessageEmbed) :
  3 <= effective_max (px this) <= 46 ->
  3 <= effective_max (px (snd (invoke verifyString c this))) <= 46.
Proof.
  intros Hw. destruct (resizes c) eqn:Hc.
  - destruct c as [v|n v|l|v|v|today v|v]; try discriminate Hc.
    destruct v as [| |[n|]| |]; try discriminate Hc.
    cbn [resizes] in Hc. cbn [invoke]. unfold sizeEmbed.
    cbn [typeof not_string bool_strict_eq_string andb]. rewrite Hc.
    cbn [snd bind assign ret set_px px effective_max char_of].
    apply andb_prop in Hc as [H2 H47].
    apply Z.gtb_lt in H2. apply Z.ltb_lt in H47. lia.
  - rewrite invoke_keeps_px by exact Hc. exact Hw.
Qed.

(** X22. With whole numbers the effective width stays between 3 and 46: on
    an embed whose effective width is in that range (a fresh embed has 28),
    it still is after any sequence of calls of the mutators, failed ones
    included, in which every number handed to sizeEmbed is an integer or
    NaN, as every number of this model is. (The range check of sizeEmbed
    has no integer test: a fractional argument such as 2.5 passes it, and
    is not covered here.) *)
Theorem width_stays_in_range
    (verifyString : jsval -> (string -> error) -> string -> bool -> completion jsstring)
    (calls : list call) (this : MessageEmbed) :
  3 <= effective_max (px this) <= 46 ->
  3 <= effective_max (px (run verifyString calls this)) <= 46.
Proof.
  revert this. induction calls as [|c calls IH]; intros this Hw; [exact Hw |].
  unfold run in *. cbn [fold_left]. apply IH.
  apply invoke_keeps_width. exact Hw.
Qed.

Lemma width_stays_in_range_witness :
  3 <= effective_max
         (px (run verifyString_nonempty
                [CallSizeEmbed (JNumber (Num 46)); CallSizeEmbed (JNumber (Num 47));
                 CallSizeEmbed JUndefined; CallSetTitle (JString (lit "Hi"));
                 CallSizeEmbed (JNumber (Num 3)); CallSetFooter JNull]
                new_embed)) <= 46.
Proof.
  apply (width_stays_in_range verifyString_nonempty
           [CallSizeEmbed (JNumber (Num 46)); CallSizeEmbed (JNumber (Num 47));
            CallSizeEmbed JUndefined; CallSetTitle (JString (lit "Hi"));
            CallSizeEmbed (JNumber (Num 3)); CallSetFooter JNull]
           new_embed).
  vm_compute. split; discriminate.
Defined.
